(** * Survey service (main.py): scoring and survey/response lifecycle

    A shallow embedding of the FastAPI handlers of [main.py].  Python values
    that travel through [json.loads]/[json.dumps] and through the [Any]
    fields of the request schemas are modelled by the type [json]; the two
    SQL tables are lists of rows; a handler is a function from the store to
    the store after the call together with either its return value or the
    exception it raises. *)

From stdpp Require Import gmap strings list fin_maps pretty.
From Stdlib Require Import ZArith Lia.
From Stdlib Require Import Ascii.

#[local] Open Scope Z_scope.
#[local] Set Warnings "-register-all".

(** ** Python values *)

(** The values [json.loads] produces: [None], [bool], [int], [str], [list]
    and [dict] with string keys.  A Rocq [ascii] stands for one character (a
    code point below 256) of a Python [str].  Numbers are the integers;
    floating-point numbers are outside this model. *)
Inductive json :=
  | JNull
  | JBool (b : bool)
  | JInt (z : Z)
  | JStr (s : string)
  | JList (l : list json)
  | JDict (d : gmap string json).

(** Exceptions, by class. *)
Inductive exn :=
  | AttributeError
  | TypeError
  | JSONDecodeError
  | ValidationError
  | HTTPException (status_code : Z) (detail : string).

Inductive result (A : Type) :=
  | Ok (a : A)
  | Raise (e : exn).
Arguments Ok {A} a.
Arguments Raise {A} e.

(** Sequencing: an exception aborts what follows ([x ← r; k]). *)
#[global] Instance result_bind : MBind result := λ A B f r,
  match r with
  | Ok a => f a
  | Raise e => Raise e
  end.
#[global] Instance result_ret : MRet result := λ A a, Ok a.

(** [a == b] on the values above.  [bool] is a subclass of [int], so
    [True == 1] and [False == 0]; lists compare element by element, dicts
    key by key whatever the insertion order. *)
Fixpoint py_eq (a b : json) : bool :=
  match a, b with
  | JNull, JNull => true
  | JBool x, JBool y => bool_decide (x = y)
  | JBool x, JInt y | JInt y, JBool x => bool_decide (y = if x then 1 else 0)
  | JInt x, JInt y => bool_decide (x = y)
  | JStr x, JStr y => bool_decide (x = y)
  | JList xs, JList ys =>
      (fix go (xs ys : list json) : bool :=
         match xs, ys with
         | [], [] => true
         | x :: xs', y :: ys' => py_eq x y && go xs' ys'
         | _, _ => false
         end) xs ys
  | JDict m, JDict n =>
      bool_decide (size m = size n) &&
      map_fold (λ k v acc,
        acc && match n !! k with Some w => py_eq v w | None => false end)
        true m
  | _, _ => false
  end.

(** [isinstance(v, list)] *)
Definition isinstance_list (v : json) : bool :=
  match v with JList _ => true | _ => false end.

(** [obj.get(k, default)]: only a dict has the method. *)
Definition py_get (obj : json) (k : string) (dflt : json) : result json :=
  match obj with
  | JDict d => Ok (default dflt (d !! k))
  | _ => Raise AttributeError
  end.

(** Iterating a value, as [set(x)] does: the elements of a list, the
    characters of a str, the keys of a dict; other values are not iterable. *)
Definition py_iter (x : json) : result (list json) :=
  match x with
  | JList l => Ok l
  | JStr s => Ok ((λ c, JStr (String c EmptyString)) <$> String.list_ascii_of_string s)
  | JDict d => Ok ((λ kv, JStr kv.1) <$> map_to_list d)
  | _ => Raise TypeError
  end.

(** Lists and dicts are unhashable. *)
Definition hashable (x : json) : bool :=
  match x with
  | JList _ | JDict _ => false
  | _ => true
  end.

(** A Python [set] is kept as the list of its elements in insertion order,
    one per class of [==]. *)
Definition pyset := list json.

Definition py_in (x : json) (s : pyset) : bool := existsb (py_eq x) s.

Definition set_add (s : pyset) (x : json) : result pyset :=
  if hashable x then Ok (if py_in x s then s else s ++ [x])
  else Raise TypeError.

Fixpoint set_update (s : pyset) (xs : list json) : result pyset :=
  match xs with
  | [] => Ok s
  | x :: xs' => s' ← set_add s x; set_update s' xs'
  end.

(** [set(x)] *)
Definition py_set (x : json) : result pyset :=
  xs ← py_iter x; set_update [] xs.

(** [a == b] on sets: same size and every element of [a] in [b]. *)
Definition set_eq (a b : pyset) : bool :=
  bool_decide (length a = length b) && forallb (λ x, py_in x b) a.

(** [d.items()].  The entries come in the order of the map, not in the
    insertion order of the dict; the loop below gives the same result in
    any order (see [score_loop_Permutation]). *)
Definition py_items (obj : json) : result (list (string * json)) :=
  match obj with
  | JDict d => Ok (map_to_list d)
  | _ => Raise AttributeError
  end.

(** ** Scoring (the loop of [submit_response]) *)

(** The test made for the entry [(k, v)] of the answer key. *)
Definition entry_matches (user : json) (k : string) (v : json) : result bool :=
  if isinstance_list v then
    got ← py_get user k (JList []);
    s1 ← py_set got;
    s2 ← py_set v;
    Ok (set_eq s1 s2)
  else
    got ← py_get user k JNull;
    Ok (py_eq got v).

(** One iteration of [for k, v in correct.items()] on [(score, total)]. *)
Definition score_entry (user : json) (st : Z * Z) (kv : string * json)
    : result (Z * Z) :=
  let '(score, total) := st in
  let '(k, v) := kv in
  let total := total + 1 in
  m ← entry_matches user k v;
  Ok (if m : bool then score + 1 else score, total).

Fixpoint score_loop (user : json) (items : list (string * json)) (st : Z * Z)
    : result (Z * Z) :=
  match items with
  | [] => Ok st
  | kv :: rest => st' ← score_entry user st kv; score_loop user rest st'
  end.

(** [score = 0; total = 0; for k, v in correct.items(): ...] *)
Definition score (correct user : json) : result (Z * Z) :=
  items ← py_items correct; score_loop user items (0, 0).


(** ** The [json] module: [json.dumps] and [json.loads]

    Texts are handled as lists of characters; [json_dumps] and [json_loads]
    convert at the boundary. *)

Definition chars (s : string) : list ascii := String.list_ascii_of_string s.
Definition text (cs : list ascii) : string := String.string_of_list_ascii cs.

Definition dquote : ascii := "034"%char.
Definition bslash : ascii := "\"%char.

Definition hex_char (n : N) : ascii :=
  match n with
  | 0 => "0" | 1 => "1" | 2 => "2" | 3 => "3" | 4 => "4" | 5 => "5"
  | 6 => "6" | 7 => "7" | 8 => "8" | 9 => "9" | 10 => "a" | 11 => "b"
  | 12 => "c" | 13 => "d" | 14 => "e" | _ => "f"
  end%char%N.

(** One character of a string literal, as [json.dumps] writes it with
    [ensure_ascii=True]: everything outside [' '..'~'] is escaped. *)
Definition escape_char (c : ascii) : list ascii :=
  if Ascii.eqb c dquote then [bslash; dquote]
  else if Ascii.eqb c bslash then [bslash; bslash]
  else if Ascii.eqb c "010" then [bslash; "n"%char]
  else if Ascii.eqb c "013" then [bslash; "r"%char]
  else if Ascii.eqb c "009" then [bslash; "t"%char]
  else if Ascii.eqb c "008" then [bslash; "b"%char]
  else if Ascii.eqb c "012" then [bslash; "f"%char]
  else
    let n := Ascii.N_of_ascii c in
    if ((n <? 32) || (126 <? n))%N then
      [bslash; "u"; "0"; "0"; hex_char (n / 16); hex_char (n mod 16)]%char%N
    else [c].

Definition print_string (s : string) : list ascii :=
  dquote :: foldr (λ c acc, escape_char c ++ acc) [dquote] (chars s).

(** Items separated by a comma and a space, and closed by [close]. *)
Fixpoint sep_items (tail : list ascii) (items : list (list ascii)) : list ascii :=
  match items with
  | [] => tail
  | y :: items' => chars ", " ++ y ++ sep_items tail items'
  end.

Definition print_seq (items : list (list ascii)) (close : ascii) : list ascii :=
  match items with
  | [] => [close]
  | x :: rest => x ++ sep_items [close] rest
  end.

Fixpoint print_value (j : json) : list ascii :=
  match j with
  | JNull => chars "null"
  | JBool b => chars (if b then "true" else "false")
  | JInt z => chars (pretty z)
  | JStr s => print_string s
  | JList l => "["%char :: print_seq (print_value <$> l) "]"
  | JDict d =>
      "{"%char ::
      print_seq
        (map_fold (λ k v acc,
           (print_string k ++ chars ": " ++ print_value v) :: acc) [] d)
        "}"
  end.

(** [json.dumps(obj)] *)
Definition json_dumps (j : json) : string := text (print_value j).

Definition is_ws (c : ascii) : bool :=
  match c with
  | " " | "009" | "010" | "013" => true
  | _ => false
  end%char.

Fixpoint skip_ws (s : list ascii) : list ascii :=
  match s with
  | c :: r => if is_ws c then skip_ws r else s
  | [] => []
  end.

(** The value of a decimal digit. *)
Definition digit_val (c : ascii) : option N :=
  let n := Ascii.N_of_ascii c in
  if ((48 <=? n) && (n <=? 57))%N then Some (n - 48)%N else None.

(** The value of a hexadecimal digit, in either case. *)
Definition hex_val (c : ascii) : option N :=
  let n := Ascii.N_of_ascii c in
  if ((48 <=? n) && (n <=? 57))%N then Some (n - 48)%N
  else if ((97 <=? n) && (n <=? 102))%N then Some (n - 87)%N
  else if ((65 <=? n) && (n <=? 70))%N then Some (n - 55)%N
  else None.

(** The character written after a backslash (other than [u]). *)
Definition unescape (c : ascii) : option ascii :=
  match c with
  | "034" => Some "034" | "\" => Some "\" | "/" => Some "/"
  | "b" => Some "008" | "f" => Some "012" | "n" => Some "010"
  | "r" => Some "013" | "t" => Some "009"
  | _ => None
  end%char.

(** The body of a string literal, after its opening quote.  A [\uXXXX]
    escape of a code point above 255 denotes a character outside the model
    and is rejected, as is a raw control character. *)
Fixpoint scan_string (s : list ascii) : option (list ascii * list ascii) :=
  match s with
  | [] => None
  | c :: r =>
      if Ascii.eqb c dquote then Some ([], r)
      else if Ascii.eqb c bslash then
        match r with
        | [] => None
        | e :: r1 =>
            if Ascii.eqb e "u" then
              match r1 with
              | h1 :: h2 :: h3 :: h4 :: r2 =>
                  match hex_val h1, hex_val h2, hex_val h3, hex_val h4 with
                  | Some 0%N, Some 0%N, Some a, Some b =>
                      match scan_string r2 with
                      | Some (cs, r3) =>
                          Some (Ascii.ascii_of_N (16 * a + b) :: cs, r3)
                      | None => None
                      end
                  | _, _, _, _ => None
                  end
              | _ => None
              end
            else
              match unescape e, scan_string r1 with
              | Some c', Some (cs, r2) => Some (c' :: cs, r2)
              | _, _ => None
              end
        end
      else if (Ascii.N_of_ascii c <? 32)%N then None
      else
        match scan_string r with
        | Some (cs, r1) => Some (c :: cs, r1)
        | None => None
        end
  end.

Fixpoint scan_digits (acc : N) (s : list ascii) : N * list ascii :=
  match s with
  | c :: r =>
      match digit_val c with
      | Some d => scan_digits (acc * 10 + d) r
      | None => (acc, s)
      end
  | [] => (acc, [])
  end.

(** A number: an optional minus sign, then either a single zero or a
    nonzero digit followed by digits.  When a fraction or an exponent
    follows, the text is a float or a syntax error, and is rejected either
    way. *)
Definition scan_number (s : list ascii) : option (json * list ascii) :=
  let '(neg, s1) :=
    match s with
    | c :: r => if Ascii.eqb c "-" then (true, r) else (false, s)
    | [] => (false, s)
    end in
  let '(found, (n, r)) :=
    match s1 with
    | c :: r1 =>
        if Ascii.eqb c "0" then (true, (0%N, r1))
        else (bool_decide (is_Some (digit_val c)), scan_digits 0 s1)
    | [] => (false, (0%N, s1))
    end in
  let is_float :=
    match r with
    | c :: _ => Ascii.eqb c "." || Ascii.eqb c "e" || Ascii.eqb c "E"
    | [] => false
    end in
  if found && negb is_float
  then Some (JInt (if neg : bool then - Z.of_N n else Z.of_N n), r)
  else None.

Fixpoint strip_prefix (p s : list ascii) : option (list ascii) :=
  match p, s with
  | [], _ => Some s
  | a :: p', b :: s' => if Ascii.eqb a b then strip_prefix p' s' else None
  | _ :: _, [] => None
  end.

(** The elements of a nonempty array: values separated by commas, closed
    by a bracket, white space allowed around each. *)
Fixpoint scan_elements (p : list ascii → option (json * list ascii))
    (n : nat) (s : list ascii) : option (list json * list ascii) :=
  match n with
  | O => None
  | S n' =>
      match p s with
      | None => None
      | Some (x, r) =>
          match skip_ws r with
          | c :: r1 =>
              if Ascii.eqb c "]" then Some ([x], r1)
              else if Ascii.eqb c "," then
                match scan_elements p n' (skip_ws r1) with
                | Some (xs, r2) => Some (x :: xs, r2)
                | None => None
                end
              else None
          | [] => None
          end
      end
  end.

(** The members of a nonempty object: a string, a colon and a value each,
    separated by commas, closed by a brace. *)
Fixpoint scan_members (p : list ascii → option (json * list ascii))
    (n : nat) (s : list ascii)
    : option (list (string * json) * list ascii) :=
  match n with
  | O => None
  | S n' =>
      match s with
      | c :: r =>
          if Ascii.eqb c dquote then
            match scan_string r with
            | None => None
            | Some (k, r1) =>
                match skip_ws r1 with
                | c1 :: r2 =>
                    if Ascii.eqb c1 ":" then
                      match p (skip_ws r2) with
                      | None => None
                      | Some (v, r3) =>
                          match skip_ws r3 with
                          | c2 :: r4 =>
                              if Ascii.eqb c2 "}" then Some ([(text k, v)], r4)
                              else if Ascii.eqb c2 "," then
                                match scan_members p n' (skip_ws r4) with
                                | Some (kvs, r5) => Some ((text k, v) :: kvs, r5)
                                | None => None
                                end
                              else None
                          | [] => None
                          end
                      end
                    else None
                | [] => None
                end
            end
          else None
      | [] => None
      end
  end.

(** [dict(pairs)]: a later pair overrides an earlier one. *)
Definition py_dict (pairs : list (string * json)) : gmap string json :=
  foldl (λ m kv, <[kv.1 := kv.2]> m) ∅ pairs.

Fixpoint scan_value (fuel : nat) (s : list ascii) : option (json * list ascii) :=
  match fuel with
  | O => None
  | S fuel' =>
      match s with
      | [] => None
      | c :: r =>
          if Ascii.eqb c dquote then
            match scan_string r with
            | Some (cs, r1) => Some (JStr (text cs), r1)
            | None => None
            end
          else if Ascii.eqb c "[" then
            match skip_ws r with
            | c1 :: r1 =>
                if Ascii.eqb c1 "]" then Some (JList [], r1)
                else
                  match scan_elements (scan_value fuel') fuel' (c1 :: r1) with
                  | Some (xs, r2) => Some (JList xs, r2)
                  | None => None
                  end
            | [] => None
            end
          else if Ascii.eqb c "{" then
            match skip_ws r with
            | c1 :: r1 =>
                if Ascii.eqb c1 "}" then Some (JDict ∅, r1)
                else
                  match scan_members (scan_value fuel') fuel' (c1 :: r1) with
                  | Some (kvs, r2) => Some (JDict (py_dict kvs), r2)
                  | None => None
                  end
            | [] => None
            end
          else if Ascii.eqb c "n" then
            match strip_prefix (chars "ull") r with
            | Some r1 => Some (JNull, r1)
            | None => None
            end
          else if Ascii.eqb c "t" then
            match strip_prefix (chars "rue") r with
            | Some r1 => Some (JBool true, r1)
            | None => None
            end
          else if Ascii.eqb c "f" then
            match strip_prefix (chars "alse") r with
            | Some r1 => Some (JBool false, r1)
            | None => None
            end
          else scan_number s
      end
  end.

(** [json.loads(s)]: one value between optional white space; anything else
    raises [JSONDecodeError]. *)
Definition json_loads (s : string) : result json :=
  let cs := chars s in
  match scan_value (S (length cs)) (skip_ws cs) with
  | Some (j, r) =>
      match skip_ws r with
      | [] => Ok j
      | _ :: _ => Raise JSONDecodeError
      end
  | None => Raise JSONDecodeError
  end.

(** ** The tables (SQLAlchemy models) *)

(** A [DateTime] value; its rendering by [isoformat()] is not modelled. *)
Definition datetime := Z.

(** A row of [surveys].  [questions] and [correct_answers] hold JSON text;
    [None] is SQL [NULL]. *)
Module Survey.
Record t := mk {
  id : Z;
  title : string;
  description : option string;
  questions : string;
  correct_answers : option string;
}.
End Survey.

(** A row of [responses]; [survey_id] is a nullable foreign key. *)
Module Response.
Record t := mk {
  id : Z;
  survey_id : option Z;
  answers : string;
  timestamp : datetime;
  student_name : option string;
}.
End Response.

(** The database: both tables, rows in insertion order. *)
Record Session := {
  surveys : list Survey.t;
  responses : list Response.t;
}.

(** The key SQLite gives a new row of a table with an [INTEGER PRIMARY KEY]
    column: one more than the largest key in use, and 1 in an empty table. *)
Definition next_rowid (ids : list Z) : Z :=
  match ids with
  | [] => 1
  | i :: rest => foldr Z.max i rest + 1
  end.

(** [db.query(Survey).filter(Survey.id == survey_id).first()] *)
Definition query_survey (survey_id : Z) (db : Session) : option Survey.t :=
  head (filter (λ s, Survey.id s = survey_id) (surveys db)).

(** [db.query(Response).filter(Response.survey_id == survey_id).all()];
    a [NULL] foreign key equals no id. *)
Definition query_responses (survey_id : Z) (db : Session) : list Response.t :=
  filter (λ r, Response.survey_id r = Some survey_id) (responses db).

(** ** The schemas (Pydantic models) *)

Module Question.
Record t := mk {
  text : string;
  type : string;
  options : option (list string);
}.
End Question.

(** [SurveyCreate]; [correct_answers] is [JNull] for [None]. *)
Module SurveyCreate.
Record t := mk {
  title : string;
  description : option string;
  questions : list Question.t;
  correct_answers : json;
}.
End SurveyCreate.

Module SurveyOut.
Record t := mk {
  id : Z;
  title : string;
  description : option string;
  questions : list Question.t;
  correct_answers : json;
}.
End SurveyOut.

(** [ResponseCreate]; [answers] is any value, [JNull] for [None]. *)
Module ResponseCreate.
Record t := mk {
  answers : json;
  student_name : option string;
}.
End ResponseCreate.

Module ResponseOut.
Record t := mk {
  id : Z;
  survey_id : Z;
  answers : json;
  timestamp : datetime;
  student_name : option string;
}.
End ResponseOut.

(** The body of the [JSONResponse] of [submit_response]; [score] and
    [total] are [None] for [null]. *)
Module ScoredResponse.
Record t := mk {
  id : Z;
  survey_id : option Z;
  answers : json;
  timestamp : datetime;
  student_name : option string;
  score : option Z;
  total : option Z;
}.
End ScoredResponse.

(** [q.dict()] *)
Definition Question_dict (q : Question.t) : json :=
  JDict (<["text" := JStr (Question.text q)]>
        (<["type" := JStr (Question.type q)]>
        (<["options" :=
             match Question.options q with
             | Some l => JList (JStr <$> l)
             | None => JNull
             end]> ∅))).

Definition as_str (v : json) : result string :=
  match v with
  | JStr s => Ok s
  | _ => Raise ValidationError
  end.

Fixpoint mapM {A B} (f : A → result B) (l : list A) : result (list B) :=
  match l with
  | [] => Ok []
  | x :: l' => y ← f x; ys ← mapM f l'; Ok (y :: ys)
  end.

(** The [Question] built from the dict [q] unpacked as keyword arguments
    (the double-star call in the handlers): [q] has to be a dict; [text]
    and [type] are required strings, [options] an optional list of strings,
    other keys are ignored.  A value of another type under one of these keys
    is a validation error here (Pydantic versions differ in what they
    coerce). *)
Definition Question_of (q : json) : result Question.t :=
  match q with
  | JDict d =>
      text ← match d !! "text" with
             | Some v => as_str v
             | None => Raise ValidationError
             end;
      type ← match d !! "type" with
             | Some v => as_str v
             | None => Raise ValidationError
             end;
      options ← match d !! "options" with
                | None | Some JNull => Ok None
                | Some (JList l) => l' ← mapM as_str l; Ok (Some l')
                | Some _ => Raise ValidationError
                end;
      Ok (Question.mk text type options)
  | _ => Raise TypeError
  end.

(** [if s:] on a nullable text column. *)
Definition truthy (s : option string) : bool :=
  match s with
  | None | Some EmptyString => false
  | Some _ => true
  end.

(** The list of the [Question]s of the items of [json.loads(s.questions)] *)
Definition load_questions (s : string) : result (list Question.t) :=
  v ← json_loads s; qs ← py_iter v; mapM Question_of qs.

(** [json.loads(s.correct_answers) if s.correct_answers else None] *)
Definition load_correct_answers (s : option string) : result json :=
  if truthy s then json_loads (default "" s) else Ok JNull.

(** The [SurveyOut(...)] built from a row by [create_survey],
    [list_surveys] and [get_survey]. *)
Definition survey_out (s : Survey.t) : result SurveyOut.t :=
  questions ← load_questions (Survey.questions s);
  correct_answers ← load_correct_answers (Survey.correct_answers s);
  Ok (SurveyOut.mk (Survey.id s) (Survey.title s) (Survey.description s)
        questions correct_answers).

(** [json.dumps([q.dict() for q in questions])] *)
Definition dump_questions (questions : list Question.t) : string :=
  json_dumps (JList (Question_dict <$> questions)).

(** [json.dumps(v) if v is not None else None] *)
Definition dump_correct_answers (v : json) : option string :=
  match v with
  | JNull => None
  | _ => Some (json_dumps v)
  end.

Definition not_found {A} : result A :=
  Raise (HTTPException 404 "Survey not found").

(** ** The endpoints

    Each takes the database and gives the database after the call (what has
    been committed) with the value returned or the exception raised. *)

(** [POST /surveys/] *)
Definition create_survey (survey : SurveyCreate.t) (db : Session)
    : Session * result SurveyOut.t :=
  let db_survey :=
    Survey.mk
      (next_rowid (Survey.id <$> surveys db))
      (SurveyCreate.title survey)
      (SurveyCreate.description survey)
      (dump_questions (SurveyCreate.questions survey))
      (dump_correct_answers (SurveyCreate.correct_answers survey)) in
  (* db.add(db_survey); db.commit(); db.refresh(db_survey) *)
  let db := {| surveys := surveys db ++ [db_survey];
               responses := responses db |} in
  (db, survey_out db_survey).

(** [GET /surveys/] *)
Definition list_surveys (db : Session) : Session * result (list SurveyOut.t) :=
  (db, mapM survey_out (surveys db)).

(** [GET /surveys/{survey_id}] *)
Definition get_survey (survey_id : Z) (db : Session)
    : Session * result SurveyOut.t :=
  match query_survey survey_id db with
  | None => (db, not_found)
  | Some survey => (db, survey_out survey)
  end.

(** The score calculation of [submit_response]. *)
Definition score_calculation (survey : Survey.t) (response : ResponseCreate.t)
    : result (option Z * option Z) :=
  if truthy (Survey.correct_answers survey) then
    correct ← json_loads (default "" (Survey.correct_answers survey));
    let user := ResponseCreate.answers response in
    '(score, total) ← score correct user;
    Ok (Some score, Some total)
  else Ok (None, None).

(** [POST /surveys/{survey_id}/responses]; [now] is what
    [datetime.utcnow] gives when the row is inserted. *)
Definition submit_response (survey_id : Z) (response : ResponseCreate.t)
    (now : datetime) (db : Session) : Session * result ScoredResponse.t :=
  match query_survey survey_id db with
  | None => (db, not_found)
  | Some survey =>
      let db_response :=
        Response.mk
          (next_rowid (Response.id <$> responses db))
          (Some survey_id)
          (json_dumps (ResponseCreate.answers response))
          now
          (ResponseCreate.student_name response) in
      (* db.add(db_response); db.commit(); db.refresh(db_response) *)
      let db := {| surveys := surveys db;
                   responses := responses db ++ [db_response] |} in
      (db,
       '(score, total) ← score_calculation survey response;
       answers ← json_loads (Response.answers db_response);
       Ok (ScoredResponse.mk
             (Response.id db_response)
             (Response.survey_id db_response)
             answers
             (Response.timestamp db_response)
             (Response.student_name db_response)
             score total))
  end.

(** What the flush of [db.delete(survey)] does to a row of [responses]:
    the relationship [Survey.responses] has no delete cascade, so the rows
    of the survey are kept and their foreign key is set to [NULL]. *)
Definition detach (survey_id : Z) (r : Response.t) : Response.t :=
  if decide (Response.survey_id r = Some survey_id)
  then Response.mk (Response.id r) None (Response.answers r)
         (Response.timestamp r) (Response.student_name r)
  else r.

(** [DELETE /surveys/{survey_id}] *)
Definition delete_survey (survey_id : Z) (db : Session)
    : Session * result string :=
  match query_survey survey_id db with
  | None => (db, not_found)
  | Some survey =>
      (* db.delete(survey); db.commit() *)
      let db := {| surveys := filter (λ s, Survey.id s ≠ survey_id) (surveys db);
                   responses := detach survey_id <$> responses db |} in
      (db, Ok "Survey deleted")
  end.

(** The [UPDATE] of a row of [surveys]: three columns are assigned. *)
Definition assign (survey_id : Z) (survey_update : SurveyCreate.t)
    (s : Survey.t) : Survey.t :=
  if decide (Survey.id s = survey_id)
  then Survey.mk (Survey.id s)
         (SurveyCreate.title survey_update)
         (SurveyCreate.description survey_update)
         (dump_questions (SurveyCreate.questions survey_update))
         (Survey.correct_answers s)
  else s.

(** [PUT /surveys/{survey_id}]; the [SurveyOut] returned is built without
    [correct_answers]. *)
Definition update_survey (survey_id : Z) (survey_update : SurveyCreate.t)
    (db : Session) : Session * result SurveyOut.t :=
  match query_survey survey_id db with
  | None => (db, not_found)
  | Some survey =>
      let survey := assign survey_id survey_update survey in
      (* db.commit(); db.refresh(survey) *)
      let db := {| surveys := assign survey_id survey_update <$> surveys db;
                   responses := responses db |} in
      (db,
       questions ← load_questions (Survey.questions survey);
       Ok (SurveyOut.mk (Survey.id survey) (Survey.title survey)
             (Survey.description survey) questions JNull))
  end.

(** The [ResponseOut(...)] built from a row; its [survey_id] is an [int]
    and cannot be [None]. *)
Definition response_out (r : Response.t) : result ResponseOut.t :=
  survey_id ← match Response.survey_id r with
              | Some i => Ok i
              | None => Raise ValidationError
              end;
  answers ← json_loads (Response.answers r);
  Ok (ResponseOut.mk (Response.id r) survey_id answers
        (Response.timestamp r) (Response.student_name r)).

(** [GET /surveys/{survey_id}/responses] *)
Definition list_responses (survey_id : Z) (db : Session)
    : Session * result (list ResponseOut.t) :=
  (db, mapM response_out (query_responses survey_id db)).

(** ** Auxiliary definitions for the proofs *)

(** The class of a hashable value under [==]: [True]/[False] fall in the
    classes of [1]/[0]. *)
Inductive hkey :=
  | KNone
  | KInt (z : Z)
  | KStr (s : string).

#[global] Instance hkey_eq_dec : EqDecision hkey.
Proof. solve_decision. Defined.

Definition key_of (x : json) : hkey :=
  match x with
  | JBool b => KInt (if b then 1 else 0)
  | JInt z => KInt z
  | JStr s => KStr s
  | _ => KNone
  end.

(** A set under construction: hashable elements, one per class. *)
Definition set_inv (s : pyset) : Prop :=
  Forall (λ y, hashable y = true) s ∧ NoDup (key_of <$> s).

(** The number of nodes of a value. *)
Fixpoint json_size (j : json) : nat :=
  match j with
  | JList l => S (foldr (λ x acc, json_size x + acc)%nat 0%nat l)
  | JDict d => S (map_fold (λ _ v acc, json_size v + acc)%nat 0%nat d)
  | _ => 1%nat
  end.

(** What may follow a value inside a text written by [json.dumps]: nothing,
    a comma, or a closing bracket or brace. *)
Definition terminated (rest : list ascii) : Prop :=
  match rest with
  | [] => True
  | c :: _ => c = ","%char ∨ c = "]"%char ∨ c = "}"%char
  end.

(** The characters a printed value can start with. *)
Definition value_start (c : ascii) : Prop :=
  is_ws c = false ∧ c ≠ "]"%char ∧ c ≠ "}"%char ∧ c ≠ ","%char.

(** A member of an object as [json.dumps] writes it. *)
Definition print_member (kv : string * json) : list ascii :=
  print_string kv.1 ++ chars ": " ++ print_value kv.2.

(** ** Notions used to state the properties *)


(** Two collections hold the same distinct elements, whatever the order and
    the repetitions; elements are compared with [==]. *)
Definition same_elements (xs ys : list json) : Prop :=
  (∀ x, x ∈ xs → ∃ y, y ∈ ys ∧ py_eq x y = true) ∧
  (∀ y, y ∈ ys → ∃ x, x ∈ xs ∧ py_eq y x = true).

(** The value [user.get(k, dflt)] reads in a dict. *)
Definition submitted (user : gmap string json) (k : string) (dflt : json) : json :=
  default dflt (user !! k).

(** The entries of the answer key that the submitted answers match, when no
    test raises. *)
Definition is_match (user : json) (kv : string * json) : bool :=
  match entry_matches user kv.1 kv.2 with
  | Ok b => b
  | Raise _ => false
  end.

Definition matching (user : json) (items : list (string * json)) : Z :=
  Z.of_nat (length (filter (λ kv, is_match user kv = true) items)).

(** The exception a test of the loop can raise: it depends on the submitted
    answers only. *)
Definition raised_by (user : json) : exn :=
  match user with
  | JDict _ => TypeError
  | _ => AttributeError
  end.


(** ** Sample data *)

Definition empty_db : Session := {| surveys := []; responses := [] |}.

(** A survey with one multi-select question and its answer key. *)
Definition quiz : SurveyCreate.t :=
  SurveyCreate.mk "Quiz" None
    [Question.mk "Pick two" "checkbox" (Some ["a"; "b"; "c"])]
    (JDict {["q1" := JList [JStr "a"; JStr "b"]]}).

(** The database after [quiz] has been created in an empty one. *)
Definition quiz_db : Session := (create_survey quiz empty_db).1.

(** A survey created with an empty mapping as its answer key. *)
Definition unkeyed : SurveyCreate.t := SurveyCreate.mk "Poll" None [] (JDict ∅).

(** An update payload that sets [correct_answers]. *)
Definition quiz_update : SurveyCreate.t :=
  SurveyCreate.mk "Quiz 2" None [] (JDict {["q1" := JStr "z"]}).

(** Answers whose value for [q1] is a number. *)
Definition malformed : ResponseCreate.t :=
  ResponseCreate.mk (JDict {["q1" := JInt 5]}) None.

Definition is_Ok {A} (r : result A) : Prop :=
  match r with
  | Ok _ => True
  | Raise _ => False
  end.

(** ** Databases the endpoints produce *)

(** A row of [surveys] as [create_survey] and [update_survey] write it: the
    [questions] column holds the text of a list of questions, and the
    [correct_answers] column is [NULL] or holds the text of a value other
    than [None]. *)
Definition wf_survey (s : Survey.t) : Prop :=
  ∃ qs v, Survey.questions s = dump_questions qs ∧
          Survey.correct_answers s = dump_correct_answers v.

(** A row of [responses] as [submit_response] writes it. *)
Definition wf_response (r : Response.t) : Prop :=
  ∃ a, Response.answers r = json_dumps a.

(** What the endpoints keep true of the database: the primary keys of each
    table are distinct, the text columns hold JSON written by [json.dumps],
    and a response refers to a stored survey or to none. *)
Record wf_db (db : Session) : Prop := {
  wf_survey_ids : NoDup (Survey.id <$> surveys db);
  wf_response_ids : NoDup (Response.id <$> responses db);
  wf_surveys : Forall wf_survey (surveys db);
  wf_responses : Forall wf_response (responses db);
  wf_refs : ∀ r i, r ∈ responses db → Response.survey_id r = Some i →
                   i ∈ Survey.id <$> surveys db;
}.

(** The databases reached from the empty one by calls of the four endpoints
    that write, whatever the calls return. *)
Inductive reachable : Session → Prop :=
  | reach_empty : reachable empty_db
  | reach_create db survey :
      reachable db → reachable (create_survey survey db).1
  | reach_update db survey_id survey_update :
      reachable db → reachable (update_survey survey_id survey_update db).1
  | reach_delete db survey_id :
      reachable db → reachable (delete_survey survey_id db).1
  | reach_submit db survey_id response now :
      reachable db → reachable (submit_response survey_id response now db).1.

(** An expected value that a missing answer matches: [null] or the empty
    list. *)
Definition blank (v : json) : bool :=
  match v with
  | JNull | JList [] => true
  | _ => false
  end.

(** The row of [quiz] in [quiz_db], answers that leave every question out,
    and what [submit_response] returns for them. *)
Definition quiz_row : Survey.t :=
  Survey.mk 1 (SurveyCreate.title quiz) (SurveyCreate.description quiz)
    (dump_questions (SurveyCreate.questions quiz))
    (Some (json_dumps (SurveyCreate.correct_answers quiz))).

Definition no_answers : ResponseCreate.t := ResponseCreate.mk (JDict ∅) None.

Definition quiz_scored : ScoredResponse.t :=
  ScoredResponse.mk 1 (Some 1) (JDict ∅) 0 None (Some 0) (Some 1).

(** [isinstance(v, dict)] *)
Definition isinstance_dict (v : json) : bool :=
  match v with JDict _ => true | _ => false end.

(** A survey whose answer key is a list, not a mapping, and the database
    after it has been created in an empty one. *)
Definition listed : SurveyCreate.t :=
  SurveyCreate.mk "Listed" None [] (JList [JStr "a"]).

Definition listed_db : Session := (create_survey listed empty_db).1.
(** ** Facts about Python equality and sets *)

Lemma py_eq_key x y :
  hashable x = true → hashable y = true →
  py_eq x y = true ↔ key_of x = key_of y.
Proof.
  destruct x as [|[]| | | |], y as [|[]| | | |]; simpl; try done;
    intros _ _; rewrite ?bool_decide_eq_true; split;
    try congruence; try (intros [=]; congruence); try (intros [=]; done).
Qed.

Lemma py_in_key x s :
  hashable x = true → Forall (λ y, hashable y = true) s →
  py_in x s = true ↔ key_of x ∈ key_of <$> s.
Proof.
  intros Hx Hs. unfold py_in. rewrite existsb_exists, list_elem_of_fmap.
  split.
  - intros (y & Hy & He). exists y. rewrite <- list_elem_of_In in Hy.
    rewrite Forall_forall in Hs. split; [|done].
    apply py_eq_key; auto.
  - intros (y & He & Hy). exists y. rewrite <- list_elem_of_In.
    rewrite Forall_forall in Hs. split; [done|].
    apply py_eq_key; auto.
Qed.

Lemma set_inv_nil : set_inv [].
Proof. split; [constructor|]. simpl. constructor. Qed.

Lemma set_update_ok s xs :
  set_inv s → Forall (λ y, hashable y = true) xs →
  ∃ s', set_update s xs = Ok s' ∧ set_inv s' ∧
        ∀ k, k ∈ key_of <$> s' ↔ k ∈ key_of <$> s ∨ k ∈ key_of <$> xs.
Proof.
  intros Hs Hxs. revert s Hs.
  induction Hxs as [|x xs Hx Hxs IH]; intros s Hs.
  - exists s. simpl. split; [done|]. split; [done|].
    intros k. rewrite elem_of_nil. tauto.
  - simpl. unfold set_add. rewrite Hx. simpl.
    destruct Hs as [Hh Hnd].
    destruct (py_in x s) eqn:Hin.
    + destruct (IH s) as (s' & Heq & Hinv & Hk); [done|].
      exists s'. split; [done|]. split; [done|].
      intros k. rewrite Hk, elem_of_cons.
      apply py_in_key in Hin; [|done..].
      split; [tauto|]. intros [?|[->|?]]; auto.
    + assert (key_of x ∉ key_of <$> s) as Hnin.
      { intros Hc. apply py_in_key in Hc; [|done..]. congruence. }
      destruct (IH (s ++ [x])) as (s' & Heq & Hinv & Hk).
      { split.
        - apply Forall_app. split; [done|]. by constructor.
        - rewrite fmap_app. simpl. apply NoDup_app. split; [done|].
          split; [|apply NoDup_singleton].
          intros k Hk1 Hk2. apply list_elem_of_singleton in Hk2. by subst. }
      exists s'. split; [done|]. split; [done|].
      intros k. rewrite Hk, fmap_app, elem_of_app, elem_of_cons. simpl.
      rewrite list_elem_of_singleton. tauto.
Qed.

Lemma set_update_unhashable s xs :
  ¬ Forall (λ y, hashable y = true) xs → set_update s xs = Raise TypeError.
Proof.
  revert s. induction xs as [|x xs IH]; intros s Hn.
  - destruct Hn. constructor.
  - simpl. unfold set_add. destruct (hashable x) eqn:Hx; [|done].
    simpl. apply IH. intros Hc. apply Hn. by constructor.
Qed.

Lemma set_eq_keys a b :
  set_inv a → set_inv b →
  set_eq a b = true ↔ ∀ k, k ∈ key_of <$> a ↔ k ∈ key_of <$> b.
Proof.
  intros [Ha Hna] [Hb Hnb]. unfold set_eq.
  rewrite andb_true_iff, bool_decide_eq_true, forallb_forall.
  assert ((∀ x, In x a → py_in x b = true) ↔
          (∀ k, k ∈ key_of <$> a → k ∈ key_of <$> b)) as ->.
  { split.
    - intros H k (x & -> & Hx)%list_elem_of_fmap.
      apply py_in_key; [|done|].
      + rewrite Forall_forall in Ha. auto.
      + apply H. by apply list_elem_of_In.
    - intros H x Hx%list_elem_of_In. apply py_in_key; [|done|].
      + rewrite Forall_forall in Ha. auto.
      + apply H. apply list_elem_of_fmap. eauto. }
  split.
  - intros [Hlen Hsub] k. split; [apply Hsub|].
    assert (key_of <$> a ≡ₚ key_of <$> b) as Hp.
    { apply submseteq_length_Permutation.
      - by apply NoDup_submseteq.
      - rewrite !length_fmap. lia. }
    intros Hk. by rewrite Hp.
  - intros H. split; [|intros k; apply H].
    assert (key_of <$> a ≡ₚ key_of <$> b) as Hp by by apply NoDup_Permutation.
    apply Permutation_length in Hp. by rewrite !length_fmap in Hp.
Qed.

(** ** Induction on values *)

Lemma json_size_elem x l :
  x ∈ l → (json_size x < json_size (JList l))%nat.
Proof.
  intros Hx. simpl. apply Nat.lt_succ_r.
  induction Hx as [x l|x y l _ IH]; simpl; lia.
Qed.

Lemma json_size_lookup (d : gmap string json) k v :
  d !! k = Some v → (json_size v < json_size (JDict d))%nat.
Proof.
  intros Hk. simpl. apply Nat.lt_succ_r.
  rewrite (map_fold_delete_L _ _ k v d); [lia| |done].
  intros. lia.
Qed.

Lemma json_ind' (P : json → Prop) :
  P JNull →
  (∀ b, P (JBool b)) →
  (∀ z, P (JInt z)) →
  (∀ s, P (JStr s)) →
  (∀ l, Forall P l → P (JList l)) →
  (∀ d : gmap string json, map_Forall (λ _, P) d → P (JDict d)) →
  ∀ j, P j.
Proof.
  intros HN HB HI HS HL HD j.
  remember (json_size j) as n eqn:Hn. revert j Hn.
  induction (lt_wf n) as [n _ IH]. intros j ->.
  destruct j as [| | | |l|d]; auto.
  - apply HL, Forall_forall. intros x Hx.
    eapply IH; [|done]. by apply json_size_elem.
  - apply HD. intros k v Hk.
    eapply IH; [|done]. by eapply json_size_lookup.
Qed.

(** ** [json.loads] inverts [json.dumps] *)

Lemma chars_text cs : chars (text cs) = cs.
Proof. apply String.list_ascii_of_string_of_list_ascii. Qed.

Lemma text_chars s : text (chars s) = s.
Proof. apply String.string_of_list_ascii_of_string. Qed.

Lemma scan_string_escape_char c tail cs r :
  scan_string tail = Some (cs, r) →
  scan_string (escape_char c ++ tail) = Some (c :: cs, r).
Proof.
  intros H.
  destruct c as [[] [] [] [] [] [] [] []];
    vm_compute escape_char; cbn [app]; cbn -[Ascii.ascii_of_N];
    rewrite ?H; reflexivity.
Qed.

Lemma scan_string_print cs rest :
  scan_string (foldr (λ c acc, escape_char c ++ acc) [dquote] cs ++ rest)
  = Some (cs, rest).
Proof.
  induction cs as [|c cs IH]; [done|].
  cbn [foldr]. rewrite <- app_assoc. by apply scan_string_escape_char.
Qed.

(** Case analysis on a digit [d] known to be below 10; [tac] closes each
    of the ten cases (cases excluded by the context are discharged). *)
Ltac digit_cases d tac :=
  let Hc := fresh "Hc" in
  assert (d = 0 ∨ d = 1 ∨ d = 2 ∨ d = 3 ∨ d = 4 ∨ d = 5 ∨ d = 6 ∨ d = 7
          ∨ d = 8 ∨ d = 9)%N as Hc by lia;
  repeat (destruct Hc as [-> | Hc]; [try lia; tac|]);
  subst d; try lia; tac.

Lemma digit_val_pretty d :
  (d < 10)%N → digit_val (pretty_N_char d) = Some d.
Proof. intros Hd. digit_cases d ltac:(reflexivity). Qed.

Lemma chars_pretty_go_small x s :
  (0 < x < 10)%N → chars (pretty_N_go x s) = pretty_N_char x :: chars s.
Proof.
  intros [H0 H10]. rewrite pretty_N_go_step by done.
  rewrite N.div_small, N.mod_small by done.
  by rewrite pretty_N_go_0.
Qed.

Lemma scan_digits_pretty_go x :
  (0 < x)%N →
  ∃ m, ∀ acc s rest,
    scan_digits acc (chars (pretty_N_go x s) ++ rest)
    = scan_digits (acc * m + x) (chars s ++ rest).
Proof.
  induction (N.lt_wf_0 x) as [x _ IH]. intros Hx.
  destruct (decide (x < 10)%N) as [Hs|Hl].
  - exists 10%N. intros acc s rest.
    rewrite chars_pretty_go_small by done. simpl.
    by rewrite digit_val_pretty.
  - destruct (IH (x `div` 10)%N) as [m Hm].
    + apply N.div_lt; lia.
    + apply N.div_str_pos; lia.
    + exists (m * 10)%N. intros acc s rest.
      rewrite pretty_N_go_step by done. rewrite Hm. simpl.
      rewrite digit_val_pretty by (apply N.mod_lt; lia).
      f_equal. pose proof (N.div_mod x 10). lia.
Qed.

Lemma chars_pretty_go_head x s :
  (0 < x)%N →
  ∃ d r, (0 < d < 10)%N ∧ chars (pretty_N_go x s) = pretty_N_char d :: r.
Proof.
  revert s. induction (N.lt_wf_0 x) as [x _ IH]. intros s Hx.
  destruct (decide (x < 10)%N) as [Hs|Hl].
  - exists x, (chars s). split; [lia|]. by apply chars_pretty_go_small.
  - rewrite pretty_N_go_step by done. apply IH.
    + apply N.div_lt; lia.
    + apply N.div_str_pos; lia.
Qed.

Lemma scan_digits_terminated n rest :
  terminated rest → scan_digits n rest = (n, rest).
Proof.
  destruct rest as [|c rest]; [done|].
  intros [-> | [-> | ->]]; reflexivity.
Qed.

Lemma scan_number_pos p rest :
  terminated rest →
  ∃ d r, (0 < d < 10)%N ∧
    chars (pretty (Npos p)) ++ rest = pretty_N_char d :: r ∧
    scan_digits 0 (chars (pretty (Npos p)) ++ rest) = (Npos p, rest).
Proof.
  intros Ht. unfold pretty, pretty_N. rewrite decide_False by done.
  destruct (chars_pretty_go_head (Npos p) "") as (d & r & Hd & Hr); [lia|].
  exists d, (r ++ rest). split; [done|]. split; [by rewrite Hr|].
  destruct (scan_digits_pretty_go (Npos p)) as [m Hm]; [lia|].
  rewrite Hm. simpl. by apply scan_digits_terminated.
Qed.

Lemma not_float_terminated rest :
  terminated rest →
  match rest with
  | c :: _ => Ascii.eqb c "." || Ascii.eqb c "e" || Ascii.eqb c "E"
  | [] => false
  end = false.
Proof.
  destruct rest as [|c rest]; [done|].
  intros [-> | [-> | ->]]; reflexivity.
Qed.

Lemma scan_number_digits (neg : bool) d r n rest :
  (0 < d < 10)%N →
  scan_digits 0 (pretty_N_char d :: r) = (n, rest) →
  terminated rest →
  scan_number ((if neg then ["-"%char] else []) ++ pretty_N_char d :: r)
  = Some (JInt (if neg then - Z.of_N n else Z.of_N n), rest).
Proof.
  intros Hd Hs Ht. pose proof (not_float_terminated rest Ht) as Hf.
  unfold scan_number.
  digit_cases d ltac:(destruct neg; simpl in *; rewrite Hs, Hf; reflexivity).
Qed.

Lemma scan_number_print z rest :
  terminated rest →
  scan_number (chars (pretty z) ++ rest) = Some (JInt z, rest).
Proof.
  intros Ht.
  destruct z as [|p|p].
  - unfold scan_number. simpl. by rewrite (not_float_terminated rest Ht).
  - destruct (scan_number_pos p rest Ht) as (d & r & Hd & Hr & Hs).
    change (pretty (Z.pos p)) with (pretty (N.pos p)).
    rewrite Hr in Hs |- *.
    apply (scan_number_digits false d r (N.pos p) rest); done.
  - destruct (scan_number_pos p rest Ht) as (d & r & Hd & Hr & Hs).
    change (chars (pretty (Z.neg p))) with ("-"%char :: chars (pretty (N.pos p))).
    rewrite <- app_comm_cons. rewrite Hr in Hs |- *.
    apply (scan_number_digits true d r (N.pos p) rest); done.
Qed.

Lemma pretty_head (z : Z) :
  ∃ c r, chars (pretty z) = c :: r ∧ c ∈ chars "-0123456789".
Proof.
  assert (∀ d, (d < 10)%N → pretty_N_char d ∈ chars "-0123456789") as Hd.
  { intros d Hd.
    digit_cases d ltac:(simpl;
      repeat (first [by apply list_elem_of_here | apply list_elem_of_further])). }
  assert (∀ p, ∃ c r, chars (pretty (N.pos p)) = c :: r
                      ∧ c ∈ chars "-0123456789") as Hp.
  { intros p. unfold pretty, pretty_N. rewrite decide_False by done.
    destruct (chars_pretty_go_head (N.pos p) "") as (d & r & Hd' & Hr); [lia|].
    exists (pretty_N_char d), r. split; [done|]. apply Hd. lia. }
  destruct z as [|p|p].
  - exists "0"%char, []. split; [done|]. by apply (Hd 0%N).
  - apply Hp.
  - exists "-"%char, (chars (pretty (N.pos p))). split; [done|].
    simpl. apply list_elem_of_here.
Qed.

Lemma scan_value_number fuel z rest :
  terminated rest →
  scan_value (S fuel) (chars (pretty z) ++ rest) = Some (JInt z, rest).
Proof.
  intros Ht. rewrite <- (scan_number_print z rest Ht).
  destruct (pretty_head z) as (c & r & -> & Hc).
  simpl in Hc. rewrite <- app_comm_cons.
  repeat (apply elem_of_cons in Hc as [-> | Hc]; [reflexivity|]).
  by apply elem_of_nil in Hc.
Qed.

Lemma print_value_head j :
  ∃ c r, print_value j = c :: r ∧ value_start c.
Proof.
  assert (∀ c, c ∈ chars "ntf[{-0123456789" → value_start c) as Hv.
  { intros c Hc. simpl in Hc.
    repeat (apply elem_of_cons in Hc as [-> | Hc]; [by repeat split|]).
    by apply elem_of_nil in Hc. }
  destruct j as [|[]|z|s|l|d]; simpl; try by (eexists _, _; split;
    [reflexivity|by repeat split]).
  destruct (pretty_head z) as (c & r & -> & Hc).
  exists c, r. split; [done|]. apply Hv. simpl in *.
  do 5 apply list_elem_of_further. done.
Qed.

Lemma skip_ws_value_start c r :
  value_start c → skip_ws (c :: r) = c :: r.
Proof. intros [Hc _]. simpl. by rewrite Hc. Qed.

Lemma skip_ws_print_value j rest :
  skip_ws (print_value j ++ rest) = print_value j ++ rest.
Proof.
  destruct (print_value_head j) as (c & r & -> & Hc).
  by apply skip_ws_value_start.
Qed.

Lemma print_value_nonempty j : print_value j ≠ [].
Proof. by destruct (print_value_head j) as (c & r & -> & _). Qed.

Lemma sep_items_app items close rest :
  sep_items [close] items ++ rest = sep_items (close :: rest) items.
Proof.
  induction items as [|x items IH]; [done|].
  simpl. by rewrite <- app_assoc, IH.
Qed.

Lemma sep_items_terminated items close rest :
  close = "]"%char ∨ close = "}"%char →
  terminated (sep_items (close :: rest) items).
Proof. destruct items; simpl; tauto. Qed.

Lemma scan_elements_print p xs :
  ∀ x n rest,
    (∀ y rest', y ∈ x :: xs → terminated rest' →
                p (print_value y ++ rest') = Some (y, rest')) →
    (length xs < n)%nat →
    scan_elements p n
      (print_value x ++ sep_items ("]"%char :: rest) (print_value <$> xs))
    = Some (x :: xs, rest).
Proof.
  induction xs as [|y ys IH]; intros x n rest Hp Hn.
  - destruct n as [|n]; [simpl in Hn; lia|].
    simpl. rewrite Hp; [|apply list_elem_of_here|by right; left].
    reflexivity.
  - destruct n as [|n]; [simpl in Hn; lia|].
    cbn [scan_elements]. rewrite Hp;
      [|apply list_elem_of_here|by apply sep_items_terminated; left].
    cbn [fmap list_fmap sep_items]. cbn [chars String.list_ascii_of_string app].
    cbn [skip_ws is_ws]. cbn [Ascii.eqb Bool.eqb].
    rewrite skip_ws_print_value.
    rewrite IH; [done| |simpl in Hn; lia].
    intros z rest' Hz. apply Hp. by apply list_elem_of_further.
Qed.

Lemma scan_members_print p kvs :
  ∀ kv n rest,
    (∀ y rest', y ∈ kv :: kvs → terminated rest' →
                p (print_value y.2 ++ rest') = Some (y.2, rest')) →
    (length kvs < n)%nat →
    scan_members p n
      (print_member kv ++ sep_items ("}"%char :: rest) (print_member <$> kvs))
    = Some (kv :: kvs, rest).
Proof.
  induction kvs as [|y ys IH]; intros [k v] n rest Hp Hn;
    (destruct n as [|n]; [simpl in Hn; lia|]).
  - cbn [scan_members fmap list_fmap sep_items].
    unfold print_member, print_string. cbn [fst snd].
    rewrite <- !app_comm_cons. cbn [Ascii.eqb Bool.eqb dquote].
    rewrite <- app_assoc, scan_string_print.
    cbn [chars String.list_ascii_of_string app skip_ws is_ws Ascii.eqb Bool.eqb].
    rewrite skip_ws_print_value.
    rewrite (Hp (k, v)); [|apply list_elem_of_here|by right; right].
    cbn [skip_ws is_ws Ascii.eqb Bool.eqb]. by rewrite text_chars.
  - cbn [scan_members fmap list_fmap sep_items].
    unfold print_member at 1, print_string. cbn [fst snd].
    rewrite <- !app_comm_cons. cbn [Ascii.eqb Bool.eqb dquote].
    rewrite <- app_assoc, scan_string_print.
    cbn [chars String.list_ascii_of_string app skip_ws is_ws Ascii.eqb Bool.eqb].
    rewrite skip_ws_print_value.
    rewrite (Hp (k, v)); [|apply list_elem_of_here|by left].
    cbn [skip_ws is_ws Ascii.eqb Bool.eqb].
    assert (∀ t, skip_ws (print_member y ++ t) = print_member y ++ t) as ->.
    { intros t. unfold print_member, print_string.
      by rewrite <- !app_comm_cons. }
    rewrite IH; [by rewrite text_chars| |simpl in Hn; lia].
    intros z rest' Hz. apply Hp. by apply list_elem_of_further.
Qed.

Lemma py_dict_to_list (d : gmap string json) : py_dict (map_to_list d) = d.
Proof.
  unfold py_dict.
  assert (∀ (l : list (string * json)) (m : gmap string json),
    NoDup l.*1 →
    foldl (λ m kv, <[kv.1 := kv.2]> m) m l
    = foldr (λ kv m, <[kv.1 := kv.2]> m) m l) as H.
  { induction l as [|[k v] l IH]; intros m Hnd; [done|].
    apply NoDup_cons in Hnd as [Hk Hnd]. simpl. rewrite IH by done.
    clear IH Hnd. induction l as [|[k' v'] l IH]; [done|].
    simpl in *. apply not_elem_of_cons in Hk as [Hne Hk].
    rewrite IH by done. by apply insert_insert_ne. }
  rewrite H by apply NoDup_fst_map_to_list.
  apply (list_to_map_to_list d).
Qed.

Lemma sep_items_length tail items :
  (length tail + length items ≤ length (sep_items tail items))%nat ∧
  ∀ x, x ∈ items → (length x ≤ length (sep_items tail items))%nat.
Proof.
  induction items as [|y items [IH1 IH2]]; simpl.
  - split; [lia|]. intros x Hx. by apply elem_of_nil in Hx.
  - rewrite !length_app. split; [lia|].
    intros x [-> | Hx]%elem_of_cons; [lia|]. specialize (IH2 x Hx). lia.
Qed.

Lemma print_seq_length items close :
  (length items ≤ length (print_seq items close))%nat ∧
  ∀ x, x ∈ items → (length x ≤ length (print_seq items close))%nat.
Proof.
  destruct items as [|y items]; simpl.
  - split; [lia|]. intros x Hx. by apply elem_of_nil in Hx.
  - destruct (sep_items_length [close] items) as [H1 H2].
    rewrite length_app. simpl in H1. split; [lia|].
    intros x [-> | Hx]%elem_of_cons; [lia|]. specialize (H2 x Hx). lia.
Qed.

Lemma print_dict_items (d : gmap string json) :
  map_fold (λ k v acc,
    (print_string k ++ chars ": " ++ print_value v) :: acc) [] d
  = print_member <$> map_to_list d.
Proof.
  rewrite map_fold_foldr.
  induction (map_to_list d) as [|[k v] l IH]; [done|].
  cbn [foldr fmap list_fmap]. f_equal. exact IH.
Qed.

Lemma print_value_length_pos j : (0 < length (print_value j))%nat.
Proof. destruct (print_value_head j) as (c & r & -> & _). simpl. lia. Qed.

Lemma scan_value_print j :
  ∀ fuel rest,
    terminated rest → (length (print_value j) ≤ fuel)%nat →
    scan_value fuel (print_value j ++ rest) = Some (j, rest).
Proof.
  induction j as [|b|z|s|l IH|d IH] using json_ind'; intros fuel rest Ht Hf;
    (destruct fuel as [|fuel];
     [match type of Hf with
      | (length (print_value ?v) ≤ _)%nat =>
          pose proof (print_value_length_pos v); lia
      end|]).
  - reflexivity.
  - by destruct b.
  - by apply scan_value_number.
  - cbn [print_value]. unfold print_string. rewrite <- app_comm_cons.
    cbn [scan_value Ascii.eqb Bool.eqb dquote].
    by rewrite scan_string_print, text_chars.
  - cbn [print_value] in *. rewrite <- app_comm_cons.
    destruct l as [|x xs].
    + reflexivity.
    + cbn [length] in Hf. apply le_S_n in Hf.
      destruct (print_seq_length (print_value <$> (x :: xs)) "]") as [Hn Hx].
      cbn [fmap list_fmap print_seq] in *.
      rewrite <- app_assoc, sep_items_app.
      destruct (print_value_head x) as (c & r & Hc & Hv).
      cbn [scan_value Ascii.eqb Bool.eqb dquote].
      rewrite skip_ws_print_value.
      rewrite Hc at 1. rewrite <- app_comm_cons.
      replace (Ascii.eqb c "]") with false
        by (symmetry; apply Ascii.eqb_neq, Hv).
      rewrite app_comm_cons, <- Hc.
      rewrite scan_elements_print; [done| |].
      * intros y rest' Hy Ht'. rewrite Forall_forall in IH.
        apply IH; [done..|].
        etrans; [|apply Hf]. apply Hx.
        change (print_value y ∈ print_value <$> (x :: xs)).
        apply list_elem_of_fmap. eauto.
      * cbn [length] in Hn. rewrite length_fmap in Hn. lia.
  - cbn [print_value] in *. rewrite <- app_comm_cons.
    rewrite print_dict_items in *.
    destruct (map_to_list d) as [|kv kvs] eqn:Hd.
    + apply map_to_list_empty_iff in Hd as ->. reflexivity.
    + cbn [length] in Hf. apply le_S_n in Hf.
      destruct (print_seq_length (print_member <$> (kv :: kvs)) "}") as [Hn Hx].
      cbn [fmap list_fmap print_seq] in *.
      rewrite <- app_assoc, sep_items_app.
      cbn [scan_value Ascii.eqb Bool.eqb dquote].
      assert (∀ t, skip_ws (print_member kv ++ t) = print_member kv ++ t) as ->.
      { intros t. unfold print_member, print_string.
        by rewrite <- !app_comm_cons. }
      assert (∃ r, print_member kv = dquote :: r) as [r Hr].
      { unfold print_member, print_string. rewrite <- app_comm_cons. eauto. }
      rewrite Hr at 1. rewrite <- app_comm_cons.
      cbn [Ascii.eqb Bool.eqb dquote].
      rewrite app_comm_cons. change ("034"%char :: r) with (dquote :: r).
      rewrite <- Hr.
      rewrite scan_members_print.
      * rewrite <- Hd, py_dict_to_list. done.
      * intros [k v] rest' Hy Ht'. rewrite <- Hd in Hy.
        apply elem_of_map_to_list in Hy.
        apply (IH k v Hy); [done|]. simpl.
        etrans; [|apply Hf].
        etrans; [|apply (Hx (print_member (k, v)))].
        -- unfold print_member. rewrite !length_app. simpl. lia.
        -- change (print_member (k, v) ∈ print_member <$> (kv :: kvs)).
           rewrite <- Hd. apply list_elem_of_fmap. exists (k, v).
           split; [done|]. by apply elem_of_map_to_list.
      * cbn [length] in Hn. rewrite length_fmap in Hn. lia.
Qed.

Theorem json_loads_dumps j : json_loads (json_dumps j) = Ok j.
Proof.
  unfold json_loads, json_dumps. rewrite chars_text.
  rewrite <- (app_nil_r (print_value j)) at 2.
  rewrite skip_ws_print_value.
  rewrite scan_value_print; [done|done|lia].
Qed.

Lemma json_dumps_nonempty j : json_dumps j ≠ "".
Proof.
  unfold json_dumps. intros H.
  apply (f_equal chars) in H. rewrite chars_text in H.
  by apply print_value_nonempty in H.
Qed.

(** ** The scoring loop *)

Lemma score_loop_ok user items :
  ∀ s t,
    (∀ kv, kv ∈ items → ∃ b, entry_matches user kv.1 kv.2 = Ok b) →
    score_loop user items (s, t)
    = Ok (s + matching user items, t + Z.of_nat (length items)).
Proof.
  unfold matching.
  induction items as [|[k v] items IH]; intros s t H.
  - simpl. f_equal. f_equal; lia.
  - destruct (H (k, v)) as [b Hb]; [apply list_elem_of_here|].
    cbn [score_loop score_entry]. simpl in Hb. rewrite Hb.
    cbn [mbind result_bind]. rewrite IH.
    + assert (is_match user (k, v) = b) as Hm
        by (unfold is_match; simpl; by rewrite Hb).
      rewrite filter_cons.
      destruct b.
      * rewrite decide_True by done. f_equal. f_equal; simpl length; lia.
      * rewrite decide_False by (rewrite Hm; done).
        f_equal. f_equal; simpl length; lia.
    + intros kv Hkv. apply H. by apply list_elem_of_further.
Qed.

Lemma score_loop_total user items :
  ∀ s t s' t',
    score_loop user items (s, t) = Ok (s', t') →
    t' = t + Z.of_nat (length items) ∧ s ≤ s' ≤ s + Z.of_nat (length items).
Proof.
  induction items as [|[k v] items IH]; intros s t s' t' H.
  - simpl in H. injection H as <- <-. simpl. lia.
  - cbn [score_loop score_entry] in H.
    destruct (entry_matches user k v) as [b|e]; [|done].
    cbn [mbind result_bind] in H. apply IH in H.
    destruct b; cbn [length]; cbv beta iota in H; lia.
Qed.

Lemma score_loop_ext user user' items st :
  (∀ kv, kv ∈ items →
         entry_matches user kv.1 kv.2 = entry_matches user' kv.1 kv.2) →
  score_loop user items st = score_loop user' items st.
Proof.
  revert st. induction items as [|[k v] items IH]; intros [s t] H; [done|].
  cbn [score_loop score_entry].
  pose proof (H (k, v) (list_elem_of_here _ _)) as Hhd. simpl in Hhd.
  rewrite Hhd.
  destruct (entry_matches user' k v) as [b|e]; [|done].
  cbn [mbind result_bind]. apply IH.
  intros kv Hkv. apply H. by apply list_elem_of_further.
Qed.

(** *** The order of the entries does not matter *)

Lemma set_update_raise s xs e : set_update s xs = Raise e → e = TypeError.
Proof.
  revert s. induction xs as [|x xs IH]; intros s; [done|].
  simpl. unfold set_add. destruct (hashable x); simpl.
  - apply IH.
  - congruence.
Qed.

Lemma py_set_raise x e : py_set x = Raise e → e = TypeError.
Proof.
  unfold py_set. destruct (py_iter x) as [xs|e'] eqn:Hx; simpl.
  - apply set_update_raise.
  - destruct x; simpl in Hx; congruence.
Qed.

Section order.
Context (user : json).

Lemma entry_matches_raise k v e :
  entry_matches user k v = Raise e → e = raised_by user.
Proof.
  unfold entry_matches, py_get.
  destruct user as [| | | | |d];
    try (destruct (isinstance_list v); simpl; congruence).
  destruct (isinstance_list v); simpl; [|done].
  destruct (py_set (default (JList []) (d !! k))) as [s1|e1] eqn:H1; simpl.
  - destruct (py_set v) as [s2|e2] eqn:H2; simpl; [done|].
    intros [= <-]. by apply py_set_raise in H2.
  - intros [= <-]. by apply py_set_raise in H1.
Qed.

Lemma score_loop_raise items kv e :
  ∀ st, kv ∈ items → entry_matches user kv.1 kv.2 = Raise e →
        score_loop user items st = Raise e.
Proof.
  induction items as [|[k v] items IH]; intros [s t] Hin He;
    [by apply elem_of_nil in Hin|].
  cbn [score_loop score_entry].
  destruct (entry_matches user k v) as [b|e'] eqn:Hkv.
  - cbn [mbind result_bind]. apply IH; [|done].
    apply elem_of_cons in Hin as [-> | Hin]; [|done].
    simpl in He. congruence.
  - apply entry_matches_raise in Hkv, He. simpl. congruence.
Qed.

Lemma entries_ok_or_raise (items : list (string * json)) :
  (∀ kv, kv ∈ items → ∃ b, entry_matches user kv.1 kv.2 = Ok b) ∨
  (∃ kv e, kv ∈ items ∧ entry_matches user kv.1 kv.2 = Raise e).
Proof.
  induction items as [|kv items [IH|(kv' & e & Hin & He)]].
  - left. by intros kv ?%elem_of_nil.
  - destruct (entry_matches user kv.1 kv.2) as [b|e] eqn:Hkv.
    + left. intros kv' [-> | Hin]%elem_of_cons; eauto.
    + right. exists kv, e. split; [apply list_elem_of_here|done].
  - right. exists kv', e. split; [by apply list_elem_of_further|done].
Qed.

Lemma score_loop_Permutation items items' st :
  items ≡ₚ items' → score_loop user items st = score_loop user items' st.
Proof.
  intros Hp. destruct st as [s t].
  destruct (entries_ok_or_raise items) as [Hok|(kv & e & Hin & He)].
  - rewrite !score_loop_ok.
    + unfold matching. by rewrite Hp.
    + intros kv Hin. apply Hok. by rewrite Hp.
    + done.
  - rewrite (score_loop_raise items kv e) by done.
    rewrite (score_loop_raise items' kv e); [done| |done].
    by rewrite <- Hp.
Qed.

End order.

(** ** Sets built from collections of hashable values *)

Lemma py_set_list_ok xs :
  Forall (λ y, hashable y = true) xs →
  ∃ s, set_update [] xs = Ok s ∧ set_inv s ∧
       ∀ k, k ∈ key_of <$> s ↔ k ∈ key_of <$> xs.
Proof.
  intros H. destruct (set_update_ok [] xs set_inv_nil H) as (s & Hs & Hi & Hk).
  exists s. split; [done|]. split; [done|].
  intros k. rewrite Hk. simpl. rewrite elem_of_nil. tauto.
Qed.

Lemma same_elements_keys xs ys :
  Forall (λ y, hashable y = true) xs →
  Forall (λ y, hashable y = true) ys →
  same_elements xs ys ↔ ∀ k, k ∈ key_of <$> xs ↔ k ∈ key_of <$> ys.
Proof.
  intros Hx Hy. rewrite Forall_forall in Hx, Hy. split.
  - intros [H1 H2] k. rewrite !list_elem_of_fmap. split.
    + intros (x & -> & Hin). destruct (H1 x Hin) as (y & Hyin & He).
      exists y. split; [|done]. apply py_eq_key; auto.
    + intros (y & -> & Hin). destruct (H2 y Hin) as (x & Hxin & He).
      exists x. split; [|done]. apply py_eq_key; auto.
  - intros H. split.
    + intros x Hin.
      assert (key_of x ∈ key_of <$> ys) as (y & He & Hyin)%list_elem_of_fmap.
      { apply H, list_elem_of_fmap. eauto. }
      exists y. split; [done|]. apply py_eq_key; auto.
    + intros y Hin.
      assert (key_of y ∈ key_of <$> xs) as (x & He & Hxin)%list_elem_of_fmap.
      { apply H, list_elem_of_fmap. eauto. }
      exists x. split; [done|]. apply py_eq_key; auto.
Qed.

Lemma entry_matches_list (user : gmap string json) k v xs :
  py_iter (submitted user k (JList [])) = Ok xs →
  Forall (λ y, hashable y = true) xs →
  Forall (λ y, hashable y = true) v →
  ∃ b, entry_matches (JDict user) k (JList v) = Ok b ∧
       (b = true ↔ same_elements xs v).
Proof.
  intros Hit Hxs Hv. unfold entry_matches, py_get, py_set. simpl.
  fold (submitted user k (JList [])). rewrite Hit. simpl.
  destruct (py_set_list_ok xs Hxs) as (s1 & -> & Hi1 & Hk1).
  destruct (py_set_list_ok v Hv) as (s2 & -> & Hi2 & Hk2).
  simpl. eexists. split; [done|].
  rewrite set_eq_keys, same_elements_keys by done.
  by setoid_rewrite Hk1; setoid_rewrite Hk2.
Qed.

Lemma hashable_dec_all (xs : list json) :
  Forall (λ y, hashable y = true) xs ∨ ¬ Forall (λ y, hashable y = true) xs.
Proof. destruct (decide (Forall (λ y, hashable y = true) xs)); auto. Qed.







Lemma set_update_ok_hashable xs s :
  set_update [] xs = Ok s → Forall (λ y, hashable y = true) xs.
Proof.
  intros H. destruct (hashable_dec_all xs) as [Hx|Hx]; [done|].
  by rewrite (set_update_unhashable [] xs Hx) in H.
Qed.

Lemma entry_matches_list_true (user : gmap string json) k v :
  entry_matches (JDict user) k (JList v) = Ok true ↔
  ∃ xs, py_iter (submitted user k (JList [])) = Ok xs ∧
        Forall (λ y, hashable y = true) xs ∧
        Forall (λ y, hashable y = true) v ∧
        same_elements xs v.
Proof.
  split.
  - intros H.
    assert (∃ xs s1 s2, py_iter (submitted user k (JList [])) = Ok xs ∧
                        set_update [] xs = Ok s1 ∧ set_update [] v = Ok s2)
      as (xs & s1 & s2 & Hit & H1 & H2).
    { unfold entry_matches, py_get, py_set in H. simpl in H.
      fold (submitted user k (JList [])) in H.
      destruct (py_iter (submitted user k (JList []))) as [xs|]; [|done].
      simpl in H. destruct (set_update [] xs) as [s1|] eqn:H1; [|done].
      simpl in H. destruct (set_update [] v) as [s2|] eqn:H2; [|done].
      eauto 10. }
    exists xs. split; [done|].
    apply set_update_ok_hashable in H1, H2. split; [done|]. split; [done|].
    destruct (entry_matches_list user k v xs Hit H1 H2) as (b & Hb & Hiff).
    apply Hiff. congruence.
  - intros (xs & Hit & Hxs & Hv & Hsame).
    destruct (entry_matches_list user k v xs Hit Hxs Hv) as (b & Hb & Hiff).
    apply Hiff in Hsame. by subst.
Qed.


Example spec_order_independent :
  score (JDict {["q1" := JList [JStr "a"; JStr "b"]]})
        (JDict {["q1" := JList [JStr "b"; JStr "a"]]}) = Ok (1, 1).
Proof. reflexivity. Qed.

Example spec_subset_is_no_match :
  score (JDict {["q1" := JList [JStr "a"; JStr "b"]]})
        (JDict {["q1" := JList [JStr "a"]]}) = Ok (0, 1).
Proof. reflexivity. Qed.

Example spec_missing_key :
  score (JDict (<["q2" := JStr "y"]> {["q1" := JStr "x"]}))
        (JDict {["q1" := JStr "x"]}) = Ok (1, 2).
Proof. reflexivity. Qed.


(** ** Entries with a scalar expected value *)


Lemma entry_matches_nonlist (user : gmap string json) k v :
  isinstance_list v = false →
  entry_matches (JDict user) k v = Ok (py_eq (submitted user k JNull) v).
Proof. intros Hv. unfold entry_matches. by rewrite Hv. Qed.

Lemma score_total (correct : gmap string json) answers s t :
  score (JDict correct) answers = Ok (s, t) →
  t = Z.of_nat (size correct) ∧ 0 ≤ s ≤ t.
Proof.
  unfold score. simpl. intros H%score_loop_total.
  rewrite length_map_to_list in H. lia.
Qed.




(** ** When the scoring loop raises *)




(** C10.  An entry whose expected value is the empty list is counted as a
    match when the submitted dict has no such key: the missing value reads
    as the empty list, and two empty sets are equal. *)
Theorem C10_empty_list_matches_missing_key
    (user : gmap string json) (k : string) (s t : Z) :
  user !! k = None →
  entry_matches (JDict user) k (JList []) = Ok true ∧
  score_entry (JDict user) (s, t) (k, JList []) = Ok (s + 1, t + 1).
Proof.
  intros Hk. unfold score_entry, entry_matches, py_get. simpl.
  by rewrite Hk.
Qed.

Lemma C10_witness :
  entry_matches (JDict {["q2" := JStr "y"]}) "q1" (JList []) = Ok true ∧
  score_entry (JDict {["q2" := JStr "y"]}) (0, 0) ("q1", JList [])
  = Ok (0 + 1, 0 + 1).
Proof.
  apply (C10_empty_list_matches_missing_key {["q2" := JStr "y"]} "q1" 0 0).
  reflexivity.
Defined.

(** ** Rows, keys and queries *)

Lemma next_rowid_gt ids i : i ∈ ids → i < next_rowid ids.
Proof.
  destruct ids as [|i0 rest]; [by intros ?%elem_of_nil|].
  unfold next_rowid.
  assert (i0 ≤ foldr Z.max i0 rest) as H0.
  { induction rest as [|j rest IH]; simpl; lia. }
  intros [-> | Hi]%elem_of_cons; [lia|].
  assert (i ≤ foldr Z.max i0 rest); [|lia].
  induction Hi as [i rest|i j rest _ IH]; simpl in *.
  - lia.
  - assert (i0 ≤ foldr Z.max i0 rest) by (clear; induction rest; simpl; lia).
    specialize (IH H). lia.
Qed.

Lemma filter_none {A} (P : A → Prop) `{∀ x, Decision (P x)} (l : list A) :
  (∀ x, x ∈ l → ¬ P x) → filter P l = [].
Proof.
  induction l as [|x l IH]; intros Hl; [done|].
  rewrite filter_cons, decide_False by (apply Hl, list_elem_of_here).
  apply IH. intros y Hy. apply Hl. by apply list_elem_of_further.
Qed.

Lemma query_survey_Some survey_id db survey :
  query_survey survey_id db = Some survey →
  survey ∈ surveys db ∧ Survey.id survey = survey_id.
Proof.
  unfold query_survey. intros H.
  assert (survey ∈ filter (λ s, Survey.id s = survey_id) (surveys db)) as Hin.
  { destruct (filter _ _) as [|s l]; [done|].
    simpl in H. injection H as ->. apply list_elem_of_here. }
  by apply list_elem_of_filter in Hin as [? ?].
Qed.

Lemma query_survey_None survey_id db :
  query_survey survey_id db = None ↔ survey_id ∉ Survey.id <$> surveys db.
Proof.
  unfold query_survey. rewrite head_None. split.
  - intros H (s & -> & Hs)%list_elem_of_fmap.
    assert (s ∈ filter (λ s', Survey.id s' = Survey.id s) (surveys db)) as Hin
      by by apply list_elem_of_filter.
    rewrite H in Hin. by apply elem_of_nil in Hin.
  - intros H. apply filter_none. intros s Hs <-.
    apply H, list_elem_of_fmap. eauto.
Qed.

Lemma query_survey_new db_survey db rs :
  Survey.id db_survey = next_rowid (Survey.id <$> surveys db) →
  query_survey (Survey.id db_survey)
    {| surveys := surveys db ++ [db_survey]; responses := rs |}
  = Some db_survey.
Proof.
  intros Hid. unfold query_survey. simpl.
  rewrite filter_app, filter_none.
  - by rewrite filter_cons, decide_True.
  - intros s Hs He.
    assert (Survey.id s < next_rowid (Survey.id <$> surveys db)).
    { apply next_rowid_gt, list_elem_of_fmap. eauto. }
    lia.
Qed.

(** ** Questions survive the text column *)

Lemma mapM_as_str l : mapM as_str (JStr <$> l) = Ok l.
Proof.
  induction l as [|s l IH]; [done|].
  cbn [fmap list_fmap mapM as_str mbind result_bind].
  change (list_fmap string json JStr l) with (JStr <$> l). by rewrite IH.
Qed.

Lemma Question_of_dict q : Question_of (Question_dict q) = Ok q.
Proof.
  destruct q as [text type [options|]]; unfold Question_of, Question_dict;
    simpl; rewrite ?lookup_insert_eq;
    repeat (rewrite lookup_insert_ne by done; rewrite ?lookup_insert_eq);
    simpl; rewrite ?mapM_as_str; done.
Qed.

Lemma mapM_Question_of qs : mapM Question_of (Question_dict <$> qs) = Ok qs.
Proof.
  induction qs as [|q qs IH]; [done|].
  cbn [fmap list_fmap mapM]. by rewrite Question_of_dict, IH.
Qed.

Lemma load_questions_dumps qs :
  load_questions (dump_questions qs) = Ok qs.
Proof.
  unfold load_questions, dump_questions. rewrite json_loads_dumps. simpl.
  apply mapM_Question_of.
Qed.

Lemma truthy_dumps v : truthy (Some (json_dumps v)) = true.
Proof.
  pose proof (json_dumps_nonempty v). simpl. by destruct (json_dumps v).
Qed.

Lemma load_correct_answers_stored v :
  load_correct_answers (dump_correct_answers v) = Ok v.
Proof.
  unfold load_correct_answers, dump_correct_answers.
  destruct v; try done; rewrite truthy_dumps; apply json_loads_dumps.
Qed.

(** ** Creating and reading a survey *)

Lemma survey_out_created survey id :
  survey_out
    (Survey.mk id (SurveyCreate.title survey) (SurveyCreate.description survey)
       (dump_questions (SurveyCreate.questions survey))
       (dump_correct_answers (SurveyCreate.correct_answers survey)))
  = Ok (SurveyOut.mk id (SurveyCreate.title survey)
          (SurveyCreate.description survey) (SurveyCreate.questions survey)
          (SurveyCreate.correct_answers survey)).
Proof.
  unfold survey_out. cbn [Survey.questions Survey.correct_answers].
  rewrite load_questions_dumps, load_correct_answers_stored. done.
Qed.

Lemma create_survey_returns survey db :
  ∃ out, (create_survey survey db).2 = Ok out.
Proof.
  unfold create_survey. cbn [snd]. rewrite survey_out_created. eauto.
Qed.

(** C9.  [create_survey] returns a survey, and [get_survey] on its id, in
    the database [create_survey] leaves, returns that very survey; it
    carries the title, description, questions and answer key given. *)
Theorem C9_create_then_get (survey : SurveyCreate.t) (db : Session) :
  ∃ out : SurveyOut.t,
    (create_survey survey db).2 = Ok out ∧
    get_survey (SurveyOut.id out) (create_survey survey db).1
    = ((create_survey survey db).1, Ok out) ∧
    out = SurveyOut.mk (next_rowid (Survey.id <$> surveys db))
            (SurveyCreate.title survey) (SurveyCreate.description survey)
            (SurveyCreate.questions survey)
            (SurveyCreate.correct_answers survey).
Proof.
  eexists. unfold create_survey. cbn [fst snd].
  rewrite survey_out_created. split; [done|]. split; [|done].
  unfold get_survey. cbn [SurveyOut.id].
  match goal with
  | |- context [query_survey _ {| surveys := _ ++ [?s]; responses := _ |}] =>
      pose proof (query_survey_new s db (responses db) eq_refl) as Hq
  end.
  cbn [Survey.id] in Hq. rewrite Hq.
  by rewrite survey_out_created.
Qed.

(** ** Submitting a response *)

(** C8.  Submitting to an id that no survey has fails with the 404
    [HTTPException] and leaves the database as it was: no row is added to
    [responses]. *)
Theorem C8_submit_to_unknown_survey
    (survey_id : Z) (response : ResponseCreate.t) (now : datetime)
    (db : Session) :
  survey_id ∉ Survey.id <$> surveys db →
  submit_response survey_id response now db
  = (db, Raise (HTTPException 404 "Survey not found")).
Proof.
  intros H%query_survey_None. unfold submit_response. by rewrite H.
Qed.

Lemma C8_witness :
  submit_response 7 malformed 0 quiz_db
  = (quiz_db, Raise (HTTPException 404 "Survey not found")).
Proof.
  apply (C8_submit_to_unknown_survey 7 malformed 0 quiz_db).
  vm_compute. intros H. repeat (apply elem_of_cons in H as [H|H]; [done|]).
  by apply elem_of_nil in H.
Defined.

Lemma submit_response_found survey_id response now db survey :
  query_survey survey_id db = Some survey →
  submit_response survey_id response now db
  = ({| surveys := surveys db;
        responses := responses db ++
          [Response.mk (next_rowid (Response.id <$> responses db))
             (Some survey_id) (json_dumps (ResponseCreate.answers response))
             now (ResponseCreate.student_name response)] |},
     '(score, total) ← score_calculation survey response;
     Ok (ScoredResponse.mk (next_rowid (Response.id <$> responses db))
           (Some survey_id) (ResponseCreate.answers response) now
           (ResponseCreate.student_name response) score total)).
Proof.
  intros H. unfold submit_response. rewrite H. f_equal.
  destruct (score_calculation survey response) as [[score total]|e]; [|done].
  cbn [mbind result_bind Response.answers Response.id Response.survey_id
       Response.timestamp Response.student_name].
  by rewrite json_loads_dumps.
Qed.




(** ** Failures and what they leave in the database *)


Lemma update_survey_found survey_id survey_update db survey :
  query_survey survey_id db = Some survey →
  update_survey survey_id survey_update db
  = ({| surveys := assign survey_id survey_update <$> surveys db;
        responses := responses db |},
     Ok (SurveyOut.mk survey_id (SurveyCreate.title survey_update)
           (SurveyCreate.description survey_update)
           (SurveyCreate.questions survey_update) JNull)).
Proof.
  intros H. unfold update_survey. rewrite H.
  apply query_survey_Some in H as [_ Hid].
  unfold assign. rewrite decide_True by done.
  cbn [Survey.questions Survey.id Survey.title Survey.description].
  by rewrite load_questions_dumps, Hid.
Qed.



(** ** Deleting a survey *)

Lemma query_responses_detached survey_id (rs : list Response.t) :
  filter (λ r, Response.survey_id r = Some survey_id) (detach survey_id <$> rs)
  = [].
Proof.
  apply filter_none. intros r (r0 & -> & _)%list_elem_of_fmap.
  unfold detach. destruct (decide (Response.survey_id r0 = Some survey_id));
    simpl; congruence.
Qed.

Lemma detach_id survey_id (rs : list Response.t) :
  Response.id <$> (detach survey_id <$> rs) = Response.id <$> rs.
Proof.
  rewrite <- list_fmap_compose. apply list_fmap_ext. intros i r _. simpl.
  unfold detach. by destruct (decide _).
Qed.

(** C6, as the specification has it, fails on the code: after the survey is
    deleted its response is still a row of [responses]; only its
    [survey_id] has become [NULL]. *)
Lemma C6_counterexample :
  let db := (submit_response 1 (ResponseCreate.mk (JDict ∅) None) 0 quiz_db).1 in
  Response.id <$> responses db = [1] ∧
  (delete_survey 1 db).2 = Ok "Survey deleted" ∧
  Response.id <$> responses (delete_survey 1 db).1 = [1] ∧
  Response.survey_id <$> responses (delete_survey 1 db).1 = [None].
Proof. vm_compute. repeat split; reflexivity. Qed.

(** C6, amended.  [delete_survey] on an id no survey has fails with the 404
    [HTTPException] and changes nothing.  On the id of a stored survey it
    removes the survey and returns; the responses of the survey are not
    deleted: every row of [responses] is kept, those of the survey with
    [survey_id] set to [NULL], so that [list_responses] on the id returns
    the empty list afterwards. *)
Theorem C6_delete_detaches_responses (survey_id : Z) (db : Session) :
  (survey_id ∉ Survey.id <$> surveys db →
   delete_survey survey_id db
   = (db, Raise (HTTPException 404 "Survey not found"))) ∧
  (survey_id ∈ Survey.id <$> surveys db →
   (delete_survey survey_id db).2 = Ok "Survey deleted" ∧
   (survey_id ∉ Survey.id <$> surveys (delete_survey survey_id db).1) ∧
   (get_survey survey_id (delete_survey survey_id db).1).2
   = Raise (HTTPException 404 "Survey not found") ∧
   (∀ s, s ∈ surveys (delete_survey survey_id db).1 ↔
         s ∈ surveys db ∧ Survey.id s ≠ survey_id) ∧
   list_responses survey_id (delete_survey survey_id db).1
   = ((delete_survey survey_id db).1, Ok []) ∧
   responses (delete_survey survey_id db).1 = detach survey_id <$> responses db ∧
   Response.id <$> responses (delete_survey survey_id db).1
   = Response.id <$> responses db).
Proof.
  split.
  - intros H%query_survey_None. unfold delete_survey. by rewrite H.
  - intros Hin. unfold delete_survey.
    destruct (query_survey survey_id db) as [survey|] eqn:Hq;
      [|by apply query_survey_None in Hq].
    cbn [fst snd surveys responses]. split; [done|].
    assert (survey_id ∉ Survey.id <$>
              filter (λ s, Survey.id s ≠ survey_id) (surveys db)) as Hgone.
    { intros (s & Hs & [Hne _]%list_elem_of_filter)%list_elem_of_fmap.
      congruence. }
    split; [done|].
    split.
    { unfold get_survey.
      match goal with
      | |- context [query_survey survey_id ?d] =>
          by rewrite (proj2 (query_survey_None survey_id d) Hgone)
      end. }
    split.
    { intros s. rewrite list_elem_of_filter. tauto. }
    split.
    { unfold list_responses, query_responses. cbn [responses].
      by rewrite query_responses_detached. }
    split; [done|]. apply detach_id.
Qed.

Lemma C6_witness :
  delete_survey 7 quiz_db
  = (quiz_db, Raise (HTTPException 404 "Survey not found")) ∧
  (delete_survey 1 quiz_db).2 = Ok "Survey deleted".
Proof.
  split.
  - apply (proj1 (C6_delete_detaches_responses 7 quiz_db)).
    vm_compute. intros H. repeat (apply elem_of_cons in H as [H|H]; [done|]).
    by apply elem_of_nil in H.
  - apply (proj2 (C6_delete_detaches_responses 1 quiz_db)).
    vm_compute. apply list_elem_of_here.
Defined.

(** ** Updating a survey *)

Lemma assign_fields survey_id survey_update s :
  Survey.id (assign survey_id survey_update s) = Survey.id s ∧
  Survey.correct_answers (assign survey_id survey_update s)
  = Survey.correct_answers s.
Proof. unfold assign. by destruct (decide _). Qed.

Lemma query_survey_assign survey_id survey_update db survey rs :
  query_survey survey_id db = Some survey →
  query_survey survey_id
    {| surveys := assign survey_id survey_update <$> surveys db;
       responses := rs |}
  = Some (assign survey_id survey_update survey).
Proof.
  unfold query_survey. cbn [surveys].
  induction (surveys db) as [|s l IH]; [done|].
  cbn [fmap list_fmap]. rewrite !filter_cons.
  destruct (assign_fields survey_id survey_update s) as [-> _].
  destruct (decide (Survey.id s = survey_id)); [|done].
  simpl. by intros [= ->].
Qed.

(** C7, as the specification has it, fails on the code in what it says of
    the schema: the payload of [update_survey] is a [SurveyCreate], which
    has a [correct_answers] field; a payload that sets it is accepted, and
    the field is ignored. *)
Lemma C7_counterexample :
  SurveyCreate.correct_answers quiz_update ≠ JNull ∧
  is_Ok (update_survey 1 quiz_update quiz_db).2.
Proof. split; [done|]. vm_compute. exact I. Qed.

(** C7, amended.  [update_survey] on the id of a stored survey assigns the
    title, the description and the questions of the payload to the row and
    leaves the stored answer key of every survey as it was, whatever the
    payload holds in its own [correct_answers] field; the responses are
    untouched, and the survey returned has no answer key. *)
Theorem C7_update_keeps_answer_key
    (survey_id : Z) (survey_update : SurveyCreate.t) (db : Session)
    (survey : Survey.t) :
  query_survey survey_id db = Some survey →
  query_survey survey_id (update_survey survey_id survey_update db).1
  = Some (Survey.mk survey_id (SurveyCreate.title survey_update)
            (SurveyCreate.description survey_update)
            (dump_questions (SurveyCreate.questions survey_update))
            (Survey.correct_answers survey)) ∧
  Survey.correct_answers <$> surveys (update_survey survey_id survey_update db).1
  = Survey.correct_answers <$> surveys db ∧
  Survey.id <$> surveys (update_survey survey_id survey_update db).1
  = Survey.id <$> surveys db ∧
  responses (update_survey survey_id survey_update db).1 = responses db ∧
  (update_survey survey_id survey_update db).2
  = Ok (SurveyOut.mk survey_id (SurveyCreate.title survey_update)
          (SurveyCreate.description survey_update)
          (SurveyCreate.questions survey_update) JNull).
Proof.
  intros Hq. rewrite (update_survey_found _ _ _ _ Hq). cbn [fst snd].
  split.
  { rewrite (query_survey_assign _ _ _ _ _ Hq).
    apply query_survey_Some in Hq as [_ Hid].
    unfold assign. rewrite decide_True by done. by rewrite Hid. }
  cbn [surveys responses]. rewrite <- !list_fmap_compose.
  split.
  { apply list_fmap_ext. intros i s _. simpl.
    apply (assign_fields survey_id survey_update s). }
  split; [|done].
  apply list_fmap_ext. intros i s _. simpl.
  apply (assign_fields survey_id survey_update s).
Qed.

Lemma C7_witness :
  query_survey 1 (update_survey 1 quiz_update quiz_db).1
  = Some (Survey.mk 1 (SurveyCreate.title quiz_update)
            (SurveyCreate.description quiz_update)
            (dump_questions (SurveyCreate.questions quiz_update))
            (Some (json_dumps (SurveyCreate.correct_answers quiz)))) ∧
  Survey.correct_answers <$> surveys (update_survey 1 quiz_update quiz_db).1
  = Survey.correct_answers <$> surveys quiz_db ∧
  Survey.id <$> surveys (update_survey 1 quiz_update quiz_db).1
  = Survey.id <$> surveys quiz_db ∧
  responses (update_survey 1 quiz_update quiz_db).1 = responses quiz_db ∧
  (update_survey 1 quiz_update quiz_db).2
  = Ok (SurveyOut.mk 1 (SurveyCreate.title quiz_update)
          (SurveyCreate.description quiz_update)
          (SurveyCreate.questions quiz_update) JNull).
Proof.
  apply (C7_update_keeps_answer_key 1 quiz_update quiz_db
           (Survey.mk 1 (SurveyCreate.title quiz)
              (SurveyCreate.description quiz)
              (dump_questions (SurveyCreate.questions quiz))
              (Some (json_dumps (SurveyCreate.correct_answers quiz))))).
  reflexivity.
Defined.

(** ** The invariant of the database *)

Lemma wf_db_empty : wf_db empty_db.
Proof.
  split; simpl; try constructor.
  intros r i Hr. by apply elem_of_nil in Hr.
Qed.

Lemma wf_survey_assign survey_id survey_update s :
  wf_survey s → wf_survey (assign survey_id survey_update s).
Proof.
  intros (qs & v & Hq & Hc). unfold assign. destruct (decide _).
  - exists (SurveyCreate.questions survey_update), v. by split.
  - by exists qs, v.
Qed.

Lemma wf_db_create survey db : wf_db db → wf_db (create_survey survey db).1.
Proof.
  intros [Hs Hr Hws Hwr Href]. unfold create_survey.
  split; cbn [fst surveys responses]; try done.
  - rewrite fmap_app. apply NoDup_app. split; [done|].
    split; [|apply NoDup_singleton].
    intros i Hi ->%list_elem_of_singleton. cbn [Survey.id] in Hi.
    apply next_rowid_gt in Hi. lia.
  - apply Forall_app. split; [done|]. constructor; [|constructor].
    by eexists _, _.
  - intros r i Hin Hi. rewrite fmap_app, elem_of_app. left. eauto.
Qed.

Lemma wf_db_update survey_id survey_update db :
  wf_db db → wf_db (update_survey survey_id survey_update db).1.
Proof.
  intros Hwf. destruct (query_survey survey_id db) as [survey|] eqn:Hq.
  - rewrite (update_survey_found _ _ _ _ Hq). cbn [fst].
    destruct Hwf as [Hs Hr Hws Hwr Href].
    assert (Survey.id <$> (assign survey_id survey_update <$> surveys db)
            = Survey.id <$> surveys db) as Hids.
    { rewrite <- list_fmap_compose. apply list_fmap_ext. intros i s _.
      apply (assign_fields survey_id survey_update s). }
    split; cbn [surveys responses]; try done.
    + by rewrite Hids.
    + apply Forall_fmap. eapply Forall_impl; [done|].
      intros s. apply wf_survey_assign.
    + intros r i Hin Hi. rewrite Hids. eauto.
  - unfold update_survey. by rewrite Hq.
Qed.

Lemma detach_fields survey_id r :
  Response.id (detach survey_id r) = Response.id r ∧
  Response.answers (detach survey_id r) = Response.answers r ∧
  Response.timestamp (detach survey_id r) = Response.timestamp r ∧
  Response.student_name (detach survey_id r) = Response.student_name r ∧
  (∀ i, Response.survey_id (detach survey_id r) = Some i ↔
        Response.survey_id r = Some i ∧ i ≠ survey_id).
Proof.
  unfold detach. destruct (decide _) as [He|Hne]; simpl.
  - do 4 (split; [done|]). intros i. split; [done|].
    intros [Hi Hn]. congruence.
  - do 4 (split; [done|]). intros i. split; [|by intros [? ?]].
    intros Hi. split; [done|]. congruence.
Qed.

Lemma wf_db_delete survey_id db : wf_db db → wf_db (delete_survey survey_id db).1.
Proof.
  intros Hwf. unfold delete_survey.
  destruct (query_survey survey_id db) as [survey|]; [|done].
  destruct Hwf as [Hs Hr Hws Hwr Href].
  split; cbn [fst surveys responses].
  - apply NoDup_fmap_2_strong; [|by apply NoDup_filter, (NoDup_fmap_1 Survey.id)].
    intros s1 s2 [_ H1]%list_elem_of_filter [_ H2]%list_elem_of_filter He.
    apply list_elem_of_lookup in H1 as [i1 H1], H2 as [i2 H2].
    assert (i1 = i2).
    { eapply NoDup_lookup; [exact Hs|..];
        rewrite list_lookup_fmap; [by rewrite H1|by rewrite H2, He]. }
    subst. congruence.
  - by rewrite detach_id.
  - apply Forall_forall. intros s [_ Hin]%list_elem_of_filter.
    rewrite Forall_forall in Hws. auto.
  - apply Forall_fmap. eapply Forall_impl; [done|].
    intros r [a Ha]. exists a. simpl.
    by destruct (detach_fields survey_id r) as (_ & -> & _).
  - intros r' i (r & -> & Hin)%list_elem_of_fmap Hi.
    apply (detach_fields survey_id r) in Hi as [Hi Hne].
    specialize (Href r i Hin Hi).
    apply list_elem_of_fmap in Href as (s & -> & Hs').
    apply list_elem_of_fmap. exists s. split; [done|].
    by apply list_elem_of_filter.
Qed.

Lemma wf_db_submit survey_id response now db :
  wf_db db → wf_db (submit_response survey_id response now db).1.
Proof.
  intros Hwf. destruct (query_survey survey_id db) as [survey|] eqn:Hq.
  - rewrite (submit_response_found _ _ _ _ _ Hq). cbn [fst].
    destruct Hwf as [Hs Hr Hws Hwr Href].
    split; cbn [surveys responses]; try done.
    + rewrite fmap_app. apply NoDup_app. split; [done|].
      split; [|apply NoDup_singleton].
      intros i Hi ->%list_elem_of_singleton. cbn [Response.id] in Hi.
      apply next_rowid_gt in Hi. lia.
    + apply Forall_app. split; [done|]. constructor; [|constructor].
      by eexists.
    + intros r i [Hin | ->%list_elem_of_singleton]%elem_of_app Hi; [eauto|].
      cbn [Response.survey_id] in Hi. injection Hi as <-.
      apply query_survey_Some in Hq as [Hin <-].
      apply list_elem_of_fmap. eauto.
  - unfold submit_response. by rewrite Hq.
Qed.

(** X1.  Every database reached from the empty one through [create_survey],
    [update_survey], [delete_survey] and [submit_response] keeps the
    invariant [wf_db]: distinct ids in each table, text columns written by
    [json.dumps], and no response that refers to a survey that is not
    stored. *)
Theorem X1_reachable_databases_are_well_formed (db : Session) :
  reachable db → wf_db db.
Proof.
  induction 1 as [|db survey _ IH|db survey_id survey_update _ IH
                  |db survey_id _ IH|db survey_id response now _ IH].
  - apply wf_db_empty.
  - by apply wf_db_create.
  - by apply wf_db_update.
  - by apply wf_db_delete.
  - by apply wf_db_submit.
Qed.

Lemma X1_witness : wf_db quiz_db.
Proof.
  apply (X1_reachable_databases_are_well_formed quiz_db).
  apply (reach_create empty_db quiz). apply reach_empty.
Defined.

(** ** Reading a well-formed database *)

Lemma mapM_ok {A B} (f : A → result B) (l : list A) :
  (∀ x, x ∈ l → ∃ y, f x = Ok y) →
  ∃ ys, mapM f l = Ok ys ∧ Forall2 (λ x y, f x = Ok y) l ys.
Proof.
  induction l as [|x l IH]; intros H.
  - exists []. split; [done|constructor].
  - destruct (H x) as [y Hy]; [apply list_elem_of_here|].
    destruct IH as (ys & Hys & Hall).
    { intros z Hz. apply H. by apply list_elem_of_further. }
    exists (y :: ys). simpl. rewrite Hy. simpl. rewrite Hys.
    split; [done|]. by constructor.
Qed.

Lemma mapM_app {A B} (f : A → result B) (l : list A) (x : A) ys y :
  mapM f l = Ok ys → f x = Ok y → mapM f (l ++ [x]) = Ok (ys ++ [y]).
Proof.
  revert ys. induction l as [|z l IH]; intros ys Hl Hx.
  - injection Hl as <-. simpl. by rewrite Hx.
  - simpl in *. destruct (f z) as [z'|]; [|done]. simpl in *.
    destruct (mapM f l) as [zs|]; [|done]. simpl in *.
    injection Hl as <-. by rewrite (IH zs eq_refl Hx).
Qed.

Lemma survey_out_wf s :
  wf_survey s →
  ∃ qs v, Survey.questions s = dump_questions qs ∧
          Survey.correct_answers s = dump_correct_answers v ∧
          survey_out s
          = Ok (SurveyOut.mk (Survey.id s) (Survey.title s)
                  (Survey.description s) qs v).
Proof.
  intros (qs & v & Hq & Hc). exists qs, v. split; [done|]. split; [done|].
  unfold survey_out.
  by rewrite Hq, Hc, load_questions_dumps, load_correct_answers_stored.
Qed.

Lemma query_survey_unique db s :
  NoDup (Survey.id <$> surveys db) → s ∈ surveys db →
  query_survey (Survey.id s) db = Some s.
Proof.
  unfold query_survey. induction (surveys db) as [|s0 l IH]; intros Hnd Hin.
  - by apply elem_of_nil in Hin.
  - cbn [fmap list_fmap] in Hnd. apply NoDup_cons in Hnd as [Hs0 Hnd].
    rewrite filter_cons. destruct (decide (Survey.id s0 = Survey.id s)) as [He|Hne].
    + apply elem_of_cons in Hin as [-> | Hin]; [done|].
      destruct Hs0. rewrite He. apply list_elem_of_fmap. eauto.
    + apply elem_of_cons in Hin as [-> | Hin]; [done|]. by apply IH.
Qed.

Lemma list_surveys_wf db :
  wf_db db →
  ∃ outs, mapM survey_out (surveys db) = Ok outs ∧
          Forall2 (λ s out, survey_out s = Ok out) (surveys db) outs.
Proof.
  intros Hwf. apply mapM_ok. intros s Hs.
  destruct Hwf as [_ _ Hws _ _]. rewrite Forall_forall in Hws.
  destruct (survey_out_wf s (Hws s Hs)) as (qs & v & _ & _ & ->). eauto.
Qed.

Lemma survey_out_id s out : survey_out s = Ok out → SurveyOut.id out = Survey.id s.
Proof.
  unfold survey_out. destruct (load_questions _); [|done]. simpl.
  destruct (load_correct_answers _); [|done]. simpl. by intros [= <-].
Qed.

Lemma survey_out_fields s out :
  survey_out s = Ok out →
  SurveyOut.id out = Survey.id s ∧ SurveyOut.title out = Survey.title s ∧
  SurveyOut.description out = Survey.description s.
Proof.
  unfold survey_out. destruct (load_questions _); [|done]. simpl.
  destruct (load_correct_answers _); [|done]. simpl. by intros [= <-].
Qed.

(** X2.  On a well-formed database [list_surveys] raises nothing and
    changes nothing: it returns one survey for each row of [surveys], in
    the order of the rows, with the id, title and description of the row
    and the questions and answer key whose texts the row holds. *)
Theorem X2_list_surveys_returns_every_row (db : Session) :
  wf_db db →
  ∃ outs : list SurveyOut.t,
    list_surveys db = (db, Ok outs) ∧
    Forall2 (λ s out,
      SurveyOut.id out = Survey.id s ∧
      SurveyOut.title out = Survey.title s ∧
      SurveyOut.description out = Survey.description s ∧
      Survey.questions s = dump_questions (SurveyOut.questions out) ∧
      Survey.correct_answers s
      = dump_correct_answers (SurveyOut.correct_answers out))
      (surveys db) outs.
Proof.
  intros Hwf. destruct (list_surveys_wf db Hwf) as (outs & Houts & Hall).
  exists outs. unfold list_surveys. rewrite Houts. split; [done|].
  destruct Hwf as [_ _ Hws _ _]. clear Houts.
  induction Hall as [|s out l outs' Hout Hall IH]; [constructor|].
  apply Forall_cons in Hws as [Hs Hws].
  constructor; [|by apply IH].
  destruct (survey_out_wf s Hs) as (qs & v & Hq & Hc & Hso).
  rewrite Hso in Hout. by injection Hout as <-.
Qed.

Lemma X2_witness :
  ∃ outs : list SurveyOut.t,
    list_surveys quiz_db = (quiz_db, Ok outs) ∧
    Forall2 (λ s out,
      SurveyOut.id out = Survey.id s ∧
      SurveyOut.title out = Survey.title s ∧
      SurveyOut.description out = Survey.description s ∧
      Survey.questions s = dump_questions (SurveyOut.questions out) ∧
      Survey.correct_answers s
      = dump_correct_answers (SurveyOut.correct_answers out))
      (surveys quiz_db) outs.
Proof.
  apply (X2_list_surveys_returns_every_row quiz_db).
  apply wf_db_create, wf_db_empty.
Defined.

(** X3.  On a well-formed database [get_survey] agrees with
    [list_surveys]: on the id of a survey that [list_surveys] returns it
    returns that same survey, and on any other id it raises the 404
    [HTTPException]; the database is unchanged either way. *)
Theorem X3_get_survey_agrees_with_list_surveys
    (db : Session) (outs : list SurveyOut.t) :
  wf_db db →
  (list_surveys db).2 = Ok outs →
  (∀ out, out ∈ outs → get_survey (SurveyOut.id out) db = (db, Ok out)) ∧
  (∀ survey_id, survey_id ∉ SurveyOut.id <$> outs →
     get_survey survey_id db
     = (db, Raise (HTTPException 404 "Survey not found"))).
Proof.
  intros Hwf Houts. simpl in Houts.
  destruct (list_surveys_wf db Hwf) as (outs' & Houts' & Hall).
  rewrite Houts' in Houts. injection Houts as ->.
  split.
  - intros out (i & Hi)%list_elem_of_lookup.
    destruct (Forall2_lookup_r _ _ _ _ _ Hall Hi) as (s & Hs & Hso).
    pose proof (survey_out_id s out Hso) as Hid.
    unfold get_survey. rewrite Hid, query_survey_unique.
    + by rewrite Hso.
    + by destruct Hwf.
    + apply list_elem_of_lookup. eauto.
  - intros survey_id Hn.
    assert (SurveyOut.id <$> outs = Survey.id <$> surveys db) as Hids.
    { clear Hn Houts'. induction Hall as [|s out l outs' Hso _ IH]; [done|].
      cbn [fmap list_fmap]. f_equal; [by apply survey_out_id|].
      apply IH. }
    rewrite Hids in Hn. apply query_survey_None in Hn.
    unfold get_survey. by rewrite Hn.
Qed.

Lemma X3_witness :
  (∀ out, out ∈ [SurveyOut.mk 1 "Quiz" None (SurveyCreate.questions quiz)
                   (SurveyCreate.correct_answers quiz)] →
     get_survey (SurveyOut.id out) quiz_db = (quiz_db, Ok out)) ∧
  (∀ survey_id,
     survey_id ∉ SurveyOut.id <$>
       [SurveyOut.mk 1 "Quiz" None (SurveyCreate.questions quiz)
          (SurveyCreate.correct_answers quiz)] →
     get_survey survey_id quiz_db
     = (quiz_db, Raise (HTTPException 404 "Survey not found"))).
Proof.
  apply (X3_get_survey_agrees_with_list_surveys quiz_db).
  - apply wf_db_create, wf_db_empty.
  - vm_compute. reflexivity.
Defined.

(** ** Responses of a survey *)

Lemma response_out_wf r i :
  wf_response r → Response.survey_id r = Some i →
  ∃ a, Response.answers r = json_dumps a ∧
       response_out r
       = Ok (ResponseOut.mk (Response.id r) i a (Response.timestamp r)
               (Response.student_name r)).
Proof.
  intros [a Ha] Hi. exists a. split; [done|].
  unfold response_out. by rewrite Hi, Ha, json_loads_dumps.
Qed.

Lemma list_responses_wf survey_id db :
  wf_db db →
  ∃ outs, mapM response_out (query_responses survey_id db) = Ok outs ∧
          Forall2 (λ r out, response_out r = Ok out)
            (query_responses survey_id db) outs.
Proof.
  intros Hwf. apply mapM_ok. intros r [Hi Hr]%list_elem_of_filter.
  destruct Hwf as [_ _ _ Hwr _]. rewrite Forall_forall in Hwr.
  destruct (response_out_wf r survey_id (Hwr r Hr) Hi) as (a & _ & ->). eauto.
Qed.

Lemma query_responses_unknown survey_id db :
  wf_db db → survey_id ∉ Survey.id <$> surveys db →
  query_responses survey_id db = [].
Proof.
  intros Hwf Hn. apply filter_none. intros r Hr Hi.
  destruct Hwf as [_ _ _ _ Href]. eauto.
Qed.

(** X4.  [list_responses] does not look the survey up: on a well-formed
    database and an id that no survey has, it returns the empty list, not
    the 404 [HTTPException], and on any id it raises nothing, changes
    nothing, and returns one response for each row of [responses] whose
    [survey_id] is the id, in the order of the rows. *)
Theorem X4_list_responses_of_unknown_survey (survey_id : Z) (db : Session) :
  wf_db db →
  (survey_id ∉ Survey.id <$> surveys db →
   list_responses survey_id db = (db, Ok [])) ∧
  ∃ outs : list ResponseOut.t,
    list_responses survey_id db = (db, Ok outs) ∧
    Forall2 (λ r out,
      ResponseOut.id out = Response.id r ∧
      ResponseOut.survey_id out = survey_id ∧
      Response.answers r = json_dumps (ResponseOut.answers out) ∧
      ResponseOut.timestamp out = Response.timestamp r ∧
      ResponseOut.student_name out = Response.student_name r)
      (filter (λ r, Response.survey_id r = Some survey_id) (responses db))
      outs.
Proof.
  intros Hwf. split.
  - intros Hn. unfold list_responses.
    by rewrite (query_responses_unknown _ _ Hwf Hn).
  - destruct (list_responses_wf survey_id db Hwf) as (outs & Houts & Hall).
    exists outs. unfold list_responses. rewrite Houts. split; [done|].
    clear Houts. unfold query_responses in Hall.
    assert (Forall (λ r, wf_response r ∧ Response.survey_id r = Some survey_id)
              (filter (λ r, Response.survey_id r = Some survey_id)
                 (responses db))) as Hf.
    { apply Forall_forall. intros r [Hi Hr]%list_elem_of_filter.
      destruct Hwf as [_ _ _ Hwr _]. rewrite Forall_forall in Hwr. auto. }
    induction Hall as [|r out l outs' Hout Hall IH]; [constructor|].
    apply Forall_cons in Hf as [[Hr Hi] Hf].
    constructor; [|by apply IH].
    destruct (response_out_wf r survey_id Hr Hi) as (a & Ha & Hro).
    rewrite Hro in Hout. by injection Hout as <-.
Qed.

Lemma X4_witness :
  (7 ∉ Survey.id <$> surveys quiz_db →
   list_responses 7 quiz_db = (quiz_db, Ok [])) ∧
  ∃ outs : list ResponseOut.t,
    list_responses 7 quiz_db = (quiz_db, Ok outs) ∧
    Forall2 (λ r out,
      ResponseOut.id out = Response.id r ∧
      ResponseOut.survey_id out = 7 ∧
      Response.answers r = json_dumps (ResponseOut.answers out) ∧
      ResponseOut.timestamp out = Response.timestamp r ∧
      ResponseOut.student_name out = Response.student_name r)
      (filter (λ r, Response.survey_id r = Some 7) (responses quiz_db))
      outs.
Proof.
  apply (X4_list_responses_of_unknown_survey 7 quiz_db).
  apply wf_db_create, wf_db_empty.
Defined.

(** X5.  A survey that has just been created has no responses, also when
    its id was the id of a survey deleted earlier: on a well-formed
    database, [list_responses] on the id [create_survey] returns gives the
    empty list. *)
Theorem X5_new_survey_has_no_responses
    (survey : SurveyCreate.t) (db : Session) :
  wf_db db →
  ∃ out : SurveyOut.t,
    (create_survey survey db).2 = Ok out ∧
    (list_responses (SurveyOut.id out) (create_survey survey db).1).2 = Ok [].
Proof.
  intros Hwf. destruct (create_survey_returns survey db) as [out Hout].
  exists out. split; [done|].
  unfold create_survey in *. cbn [fst snd] in *.
  apply survey_out_id in Hout. cbn [Survey.id] in Hout. rewrite Hout.
  unfold list_responses, query_responses. cbn [snd responses].
  rewrite filter_none; [done|].
  intros r Hr Hi. destruct Hwf as [_ _ _ _ Href].
  apply (Href r _ Hr), next_rowid_gt in Hi. lia.
Qed.

Lemma X5_witness :
  ∃ out : SurveyOut.t,
    (create_survey unkeyed quiz_db).2 = Ok out ∧
    (list_responses (SurveyOut.id out) (create_survey unkeyed quiz_db).1).2
    = Ok [].
Proof.
  apply (X5_new_survey_has_no_responses unkeyed quiz_db).
  apply wf_db_create, wf_db_empty.
Defined.

Lemma query_responses_submit survey_id response now db survey id' :
  query_survey survey_id db = Some survey →
  query_responses id' (submit_response survey_id response now db).1
  = query_responses id' db ++
    (if decide (id' = survey_id)
     then [Response.mk (next_rowid (Response.id <$> responses db))
             (Some survey_id) (json_dumps (ResponseCreate.answers response))
             now (ResponseCreate.student_name response)]
     else []).
Proof.
  intros Hq. rewrite (submit_response_found _ _ _ _ _ Hq).
  unfold query_responses. cbn [fst responses].
  rewrite filter_app, filter_cons. cbn [Response.survey_id].
  destruct (decide (id' = survey_id)) as [->|Hne].
  - by rewrite decide_True.
  - rewrite decide_False by congruence. done.
Qed.

(** X6.  A submitted response is what [list_responses] returns last for
    its survey afterwards, with the answers as they were submitted, even
    when the call of [submit_response] itself failed in the score
    calculation; the lists of the other surveys do not change. *)
Theorem X6_submitted_response_is_listed
    (survey_id : Z) (response : ResponseCreate.t) (now : datetime)
    (db : Session) (survey : Survey.t) :
  wf_db db →
  query_survey survey_id db = Some survey →
  (∃ outs : list ResponseOut.t,
     (list_responses survey_id db).2 = Ok outs ∧
     (list_responses survey_id
        (submit_response survey_id response now db).1).2
     = Ok (outs ++
           [ResponseOut.mk (next_rowid (Response.id <$> responses db))
              survey_id (ResponseCreate.answers response) now
              (ResponseCreate.student_name response)])) ∧
  (∀ id', id' ≠ survey_id →
     (list_responses id' (submit_response survey_id response now db).1).2
     = (list_responses id' db).2).
Proof.
  intros Hwf Hq. split.
  - destruct (list_responses_wf survey_id db Hwf) as (outs & Houts & _).
    exists outs. unfold list_responses. cbn [snd]. split; [done|].
    rewrite (query_responses_submit _ _ _ _ _ _ Hq), decide_True by done.
    apply mapM_app; [done|].
    unfold response_out. cbn [Response.survey_id Response.answers].
    by rewrite json_loads_dumps.
  - intros id' Hne. unfold list_responses. cbn [snd].
    rewrite (query_responses_submit _ _ _ _ _ _ Hq), decide_False by done.
    by rewrite app_nil_r.
Qed.

Lemma X6_witness :
  (∃ outs : list ResponseOut.t,
     (list_responses 1 quiz_db).2 = Ok outs ∧
     (list_responses 1 (submit_response 1 malformed 0 quiz_db).1).2
     = Ok (outs ++
           [ResponseOut.mk (next_rowid (Response.id <$> responses quiz_db))
              1 (ResponseCreate.answers malformed) 0
              (ResponseCreate.student_name malformed)])) ∧
  (∀ id', id' ≠ 1 →
     (list_responses id' (submit_response 1 malformed 0 quiz_db).1).2
     = (list_responses id' quiz_db).2).
Proof.
  apply (X6_submitted_response_is_listed 1 malformed 0 quiz_db
           (Survey.mk 1 (SurveyCreate.title quiz)
              (SurveyCreate.description quiz)
              (dump_questions (SurveyCreate.questions quiz))
              (Some (json_dumps (SurveyCreate.correct_answers quiz))))).
  - apply wf_db_create, wf_db_empty.
  - reflexivity.
Defined.

(** ** What [submit_response] returns *)

(** X7.  When [submit_response] returns, the response carries a new id,
    larger than every id in [responses], the id of the survey, the answers,
    the time and the name given; and [score] and [total] are either both
    [null], when the [correct_answers] column is [NULL] or empty, or both
    numbers, [total] being the number of entries of the stored answer key
    and [score] lying between 0 and [total]. *)
Theorem X7_shape_of_a_scored_response
    (survey_id : Z) (response : ResponseCreate.t) (now : datetime)
    (db : Session) (survey : Survey.t) (out : ScoredResponse.t) :
  query_survey survey_id db = Some survey →
  (submit_response survey_id response now db).2 = Ok out →
  (∀ i, i ∈ Response.id <$> responses db → i < ScoredResponse.id out) ∧
  ScoredResponse.survey_id out = Some survey_id ∧
  ScoredResponse.answers out = ResponseCreate.answers response ∧
  ScoredResponse.timestamp out = now ∧
  ScoredResponse.student_name out = ResponseCreate.student_name response ∧
  ((truthy (Survey.correct_answers survey) = false ∧
    ScoredResponse.score out = None ∧ ScoredResponse.total out = None) ∨
   (∃ (t : string) (correct : gmap string json) (s : Z),
      Survey.correct_answers survey = Some t ∧
      json_loads t = Ok (JDict correct) ∧
      ScoredResponse.score out = Some s ∧
      ScoredResponse.total out = Some (Z.of_nat (size correct)) ∧
      0 ≤ s ≤ Z.of_nat (size correct))).
Proof.
  intros Hq. rewrite (submit_response_found _ _ _ _ _ Hq). cbn [snd].
  destruct (score_calculation survey response) as [[sc tot]|e] eqn:Hsc;
    [|done].
  cbn [mbind result_bind]. intros [= <-].
  cbn [ScoredResponse.id ScoredResponse.survey_id ScoredResponse.answers
       ScoredResponse.timestamp ScoredResponse.student_name
       ScoredResponse.score ScoredResponse.total].
  split; [intros i; apply next_rowid_gt|]. do 4 (split; [done|]).
  unfold score_calculation in Hsc.
  destruct (truthy (Survey.correct_answers survey)) eqn:Htr.
  - right. destruct (Survey.correct_answers survey) as [t|]; [|done].
    cbn [default from_option id] in Hsc.
    destruct (json_loads t) as [correct|] eqn:Hl; [|done].
    cbn [mbind result_bind] in Hsc.
    destruct (score correct (ResponseCreate.answers response))
      as [[s t']|] eqn:Hs; [|done].
    cbn [mbind result_bind] in Hsc. injection Hsc as <- <-.
    destruct correct as [| | | | |correct]; try done.
    apply score_total in Hs as [-> Hs]. eauto 10.
  - left. by injection Hsc as <- <-.
Qed.

Lemma X7_witness :
  (∀ i, i ∈ Response.id <$> responses quiz_db →
        i < ScoredResponse.id quiz_scored) ∧
  ScoredResponse.survey_id quiz_scored = Some 1 ∧
  ScoredResponse.answers quiz_scored = ResponseCreate.answers no_answers ∧
  ScoredResponse.timestamp quiz_scored = 0 ∧
  ScoredResponse.student_name quiz_scored
  = ResponseCreate.student_name no_answers ∧
  ((truthy (Survey.correct_answers quiz_row) = false ∧
    ScoredResponse.score quiz_scored = None ∧
    ScoredResponse.total quiz_scored = None) ∨
   (∃ (t : string) (correct : gmap string json) (s : Z),
      Survey.correct_answers quiz_row = Some t ∧
      json_loads t = Ok (JDict correct) ∧
      ScoredResponse.score quiz_scored = Some s ∧
      ScoredResponse.total quiz_scored = Some (Z.of_nat (size correct)) ∧
      0 ≤ s ≤ Z.of_nat (size correct))).
Proof.
  apply (X7_shape_of_a_scored_response 1 no_answers 0 quiz_db quiz_row
           quiz_scored).
  - reflexivity.
  - vm_compute. reflexivity.
Defined.

(** ** How the endpoints compose *)

(** X8.  After [update_survey], [get_survey] returns the title, the
    description and the questions of the payload together with the answer
    key [get_survey] returned before the update, while the survey that
    [update_survey] itself returns has no answer key. *)
Theorem X8_get_after_update
    (survey_id : Z) (survey_update : SurveyCreate.t) (db : Session)
    (survey : Survey.t) :
  wf_db db →
  query_survey survey_id db = Some survey →
  ∃ before : SurveyOut.t,
    (get_survey survey_id db).2 = Ok before ∧
    (get_survey survey_id (update_survey survey_id survey_update db).1).2
    = Ok (SurveyOut.mk survey_id (SurveyCreate.title survey_update)
            (SurveyCreate.description survey_update)
            (SurveyCreate.questions survey_update)
            (SurveyOut.correct_answers before)) ∧
    (update_survey survey_id survey_update db).2
    = Ok (SurveyOut.mk survey_id (SurveyCreate.title survey_update)
            (SurveyCreate.description survey_update)
            (SurveyCreate.questions survey_update) JNull).
Proof.
  intros Hwf Hq.
  pose proof (query_survey_Some _ _ _ Hq) as [Hin Hid].
  destruct Hwf as [_ _ Hws _ _]. rewrite Forall_forall in Hws.
  destruct (survey_out_wf survey (Hws _ Hin)) as (qs & v & Hqs & Hc & Hso).
  eexists. unfold get_survey at 1. rewrite Hq. cbn [snd].
  split; [exact Hso|]. cbn [SurveyOut.correct_answers].
  rewrite (update_survey_found _ _ _ _ Hq). cbn [fst snd].
  split; [|done].
  unfold get_survey. rewrite (query_survey_assign _ _ _ _ _ Hq). cbn [snd].
  unfold assign. rewrite decide_True by done.
  unfold survey_out.
  cbn [Survey.questions Survey.correct_answers Survey.id Survey.title
       Survey.description].
  by rewrite load_questions_dumps, Hc, load_correct_answers_stored, Hid.
Qed.

Lemma X8_witness :
  ∃ before : SurveyOut.t,
    (get_survey 1 quiz_db).2 = Ok before ∧
    (get_survey 1 (update_survey 1 quiz_update quiz_db).1).2
    = Ok (SurveyOut.mk 1 (SurveyCreate.title quiz_update)
            (SurveyCreate.description quiz_update)
            (SurveyCreate.questions quiz_update)
            (SurveyOut.correct_answers before)) ∧
    (update_survey 1 quiz_update quiz_db).2
    = Ok (SurveyOut.mk 1 (SurveyCreate.title quiz_update)
            (SurveyCreate.description quiz_update)
            (SurveyCreate.questions quiz_update) JNull).
Proof.
  apply (X8_get_after_update 1 quiz_update quiz_db
           (Survey.mk 1 (SurveyCreate.title quiz)
              (SurveyCreate.description quiz)
              (dump_questions (SurveyCreate.questions quiz))
              (Some (json_dumps (SurveyCreate.correct_answers quiz))))).
  - apply wf_db_create, wf_db_empty.
  - reflexivity.
Defined.

Lemma assign_assign survey_id p1 p2 s :
  assign survey_id p2 (assign survey_id p1 s) = assign survey_id p2 s.
Proof.
  unfold assign. destruct (decide (Survey.id s = survey_id)) as [He|Hne].
  - cbn [Survey.id]. by rewrite decide_True.
  - by rewrite decide_False.
Qed.

(** X9.  The last update wins: [update_survey] after an [update_survey] of
    the same id gives the database and the result it gives without the
    first one; in particular an update repeated changes nothing more. *)
Theorem X9_last_update_wins
    (survey_id : Z) (first second : SurveyCreate.t) (db : Session) :
  update_survey survey_id second (update_survey survey_id first db).1
  = update_survey survey_id second db.
Proof.
  destruct (query_survey survey_id db) as [survey|] eqn:Hq.
  - rewrite (update_survey_found _ first _ _ Hq). cbn [fst].
    rewrite (update_survey_found _ second _ _ Hq).
    rewrite (update_survey_found _ second _ _
               (query_survey_assign _ first _ _ _ Hq)).
    cbn [surveys responses]. rewrite <- list_fmap_compose.
    do 2 f_equal. apply list_fmap_ext. intros i s _. apply assign_assign.
  - unfold update_survey at 2. by rewrite Hq.
Qed.

Lemma filter_all {A} (P : A → Prop) `{∀ x, Decision (P x)} (l : list A) :
  (∀ x, x ∈ l → P x) → filter P l = l.
Proof.
  induction l as [|x l IH]; intros Hl; [done|].
  rewrite filter_cons, decide_True by (apply Hl, list_elem_of_here).
  f_equal. apply IH. intros y Hy. apply Hl. by apply list_elem_of_further.
Qed.

(** X10.  Creating a survey and deleting it at once gives back the
    database as it was, on a well-formed database; the id is then given
    again to the next survey created. *)
Theorem X10_create_then_delete (survey next : SurveyCreate.t) (db : Session) :
  wf_db db →
  ∃ out out' : SurveyOut.t,
    (create_survey survey db).2 = Ok out ∧
    delete_survey (SurveyOut.id out) (create_survey survey db).1
    = (db, Ok "Survey deleted") ∧
    (create_survey next
       (delete_survey (SurveyOut.id out) (create_survey survey db).1).1).2
    = Ok out' ∧
    SurveyOut.id out' = SurveyOut.id out.
Proof.
  intros Hwf. destruct (create_survey_returns survey db) as [out Hout].
  destruct (create_survey_returns next db) as [out' Hout'].
  exists out, out'. split; [done|].
  assert (delete_survey (SurveyOut.id out) (create_survey survey db).1
          = (db, Ok "Survey deleted")) as Hdel.
  { unfold create_survey in *. cbn [fst snd] in *.
    apply survey_out_id in Hout. cbn [Survey.id] in Hout. rewrite Hout.
    unfold delete_survey.
    match goal with
    | |- context [query_survey _ {| surveys := _ ++ [?s]; responses := _ |}] =>
        pose proof (query_survey_new s db (responses db) eq_refl) as Hq
    end.
    cbn [Survey.id] in Hq. rewrite Hq. cbn [surveys responses].
    f_equal. destruct db as [ss rs]. cbn [surveys responses] in *. f_equal.
    - rewrite filter_app, filter_cons. cbn [Survey.id].
      rewrite decide_False by (intros H; by apply H).
      rewrite filter_nil, app_nil_r.
      apply filter_all. intros s Hs.
      assert (Survey.id s < next_rowid (Survey.id <$> ss))
        by (apply next_rowid_gt, list_elem_of_fmap; eauto).
      lia.
    - destruct Hwf as [_ _ _ _ Href]. cbn [surveys responses] in Href.
      rewrite <- (list_fmap_id rs) at 2. apply list_fmap_ext.
      intros i r Hr. unfold detach. rewrite decide_False; [done|].
      intros Hi. apply (Href r) in Hi; [|apply list_elem_of_lookup; eauto].
      apply next_rowid_gt in Hi. lia. }
  split; [done|]. rewrite Hdel. cbn [fst]. split; [done|].
  unfold create_survey in Hout, Hout'. cbn [snd] in Hout, Hout'.
  apply survey_out_id in Hout, Hout'. cbn [Survey.id] in Hout, Hout'.
  congruence.
Qed.

Lemma X10_witness :
  ∃ out out' : SurveyOut.t,
    (create_survey unkeyed quiz_db).2 = Ok out ∧
    delete_survey (SurveyOut.id out) (create_survey unkeyed quiz_db).1
    = (quiz_db, Ok "Survey deleted") ∧
    (create_survey quiz
       (delete_survey (SurveyOut.id out)
          (create_survey unkeyed quiz_db).1).1).2
    = Ok out' ∧
    SurveyOut.id out' = SurveyOut.id out.
Proof.
  apply (X10_create_then_delete unkeyed quiz quiz_db).
  apply wf_db_create, wf_db_empty.
Defined.

Lemma delete_survey_gone survey_id db :
  survey_id ∉ Survey.id <$> surveys (delete_survey survey_id db).1.
Proof.
  unfold delete_survey.
  destruct (query_survey survey_id db) as [survey|] eqn:Hq.
  - cbn [fst surveys].
    intros (s & Hs & [Hne _]%list_elem_of_filter)%list_elem_of_fmap.
    congruence.
  - by apply query_survey_None.
Qed.

(** X11.  After [delete_survey] on an id, whatever it returned, the four
    endpoints that look the survey up fail on that id with the 404
    [HTTPException] and change nothing; so a survey cannot be deleted
    twice. *)
Theorem X11_gone_after_delete
    (survey_id : Z) (survey_update : SurveyCreate.t)
    (response : ResponseCreate.t) (now : datetime) (db : Session) :
  let db' := (delete_survey survey_id db).1 in
  get_survey survey_id db'
  = (db', Raise (HTTPException 404 "Survey not found")) ∧
  update_survey survey_id survey_update db'
  = (db', Raise (HTTPException 404 "Survey not found")) ∧
  delete_survey survey_id db'
  = (db', Raise (HTTPException 404 "Survey not found")) ∧
  submit_response survey_id response now db'
  = (db', Raise (HTTPException 404 "Survey not found")).
Proof.
  intros db'.
  pose proof (proj2 (query_survey_None survey_id db')
                (delete_survey_gone survey_id db)) as Hq.
  unfold get_survey, update_survey, delete_survey at 1, submit_response.
  by rewrite Hq.
Qed.

Lemma filter_detach survey_id id' (rs : list Response.t) :
  id' ≠ survey_id →
  filter (λ r, Response.survey_id r = Some id') (detach survey_id <$> rs)
  = filter (λ r, Response.survey_id r = Some id') rs.
Proof.
  intros Hne. induction rs as [|r rs IH]; [done|].
  cbn [fmap list_fmap]. rewrite !filter_cons, IH.
  destruct (decide (Response.survey_id r = Some survey_id)) as [He|Hn].
  - assert (Response.survey_id (detach survey_id r) = None) as Hd
      by (unfold detach; by rewrite decide_True).
    rewrite decide_False by (rewrite Hd; done).
    rewrite decide_False; [done|]. rewrite He. congruence.
  - assert (detach survey_id r = r) as ->
      by (unfold detach; by rewrite decide_False).
    done.
Qed.

Lemma filter_other survey_id id' (ss : list Survey.t) :
  id' ≠ survey_id →
  filter (λ s, Survey.id s = id') (filter (λ s, Survey.id s ≠ survey_id) ss)
  = filter (λ s, Survey.id s = id') ss.
Proof.
  intros Hne. induction ss as [|s ss IH]; [done|].
  rewrite !filter_cons.
  destruct (decide (Survey.id s ≠ survey_id)) as [Hs|Hs].
  - rewrite filter_cons, IH. done.
  - rewrite IH, decide_False; [done|].
    intros He. apply Hs. congruence.
Qed.

(** X12.  [delete_survey] on one id leaves the other surveys and their
    responses as they were: [get_survey] and [list_responses] on any other
    id return afterwards what they returned before. *)
Theorem X12_delete_leaves_other_surveys (survey_id id' : Z) (db : Session) :
  id' ≠ survey_id →
  (get_survey id' (delete_survey survey_id db).1).2 = (get_survey id' db).2 ∧
  (list_responses id' (delete_survey survey_id db).1).2
  = (list_responses id' db).2.
Proof.
  intros Hne. unfold delete_survey.
  destruct (query_survey survey_id db) as [survey|]; [|done].
  cbn [fst]. split.
  - unfold get_survey, query_survey. cbn [surveys].
    rewrite filter_other by done.
    by destruct (head _).
  - unfold list_responses, query_responses. cbn [snd responses].
    by rewrite filter_detach.
Qed.

Lemma X12_witness :
  (get_survey 1 (delete_survey 2 (create_survey unkeyed quiz_db).1).1).2
  = (get_survey 1 (create_survey unkeyed quiz_db).1).2 ∧
  (list_responses 1 (delete_survey 2 (create_survey unkeyed quiz_db).1).1).2
  = (list_responses 1 (create_survey unkeyed quiz_db).1).2.
Proof.
  apply (X12_delete_leaves_other_surveys 2 1 (create_survey unkeyed quiz_db).1).
  lia.
Defined.



(** ** More on the score *)

Lemma py_eq_cons x xs y ys :
  py_eq (JList (x :: xs)) (JList (y :: ys))
  = py_eq x y && py_eq (JList xs) (JList ys).
Proof. reflexivity. Qed.

Lemma py_eq_dict (m n : gmap string json) :
  py_eq (JDict m) (JDict n)
  = bool_decide (size m = size n) &&
    map_fold (λ k v acc,
      acc && match n !! k with Some w => py_eq v w | None => false end)
      true m.
Proof. reflexivity. Qed.

Lemma py_eq_refl j : py_eq j j = true.
Proof.
  induction j as [|b|z|s|l IH|d IH] using json_ind'.
  - done.
  - destruct b; done.
  - simpl. by apply bool_decide_eq_true.
  - simpl. by apply bool_decide_eq_true.
  - induction IH as [|x l Hx _ IHl]; [done|].
    rewrite py_eq_cons, Hx, IHl. done.
  - rewrite py_eq_dict, bool_decide_true by done. cbn [andb].
    rewrite map_fold_foldr.
    assert (∀ kv, kv ∈ map_to_list d → d !! kv.1 = Some kv.2 ∧
                                        py_eq kv.2 kv.2 = true) as H.
    { intros [k v] Hkv%elem_of_map_to_list. split; [done|].
      by apply (IH k v). }
    induction (map_to_list d) as [|[k v] l IHl]; [done|].
    cbn [foldr uncurry]. rewrite IHl.
    + destruct (H (k, v)) as [Hk Hv]; [apply list_elem_of_here|].
      cbn [fst snd] in Hk, Hv. by rewrite Hk, Hv.
    + intros kv Hkv. apply H. by apply list_elem_of_further.
Qed.

Lemma same_elements_refl xs : same_elements xs xs.
Proof. split; intros x Hx; exists x; auto using py_eq_refl. Qed.

Lemma matching_all user (items : list (string * json)) :
  (∀ kv, kv ∈ items → entry_matches user kv.1 kv.2 = Ok true) →
  matching user items = Z.of_nat (length items).
Proof.
  intros H. unfold matching. rewrite filter_all; [done|].
  intros kv Hkv. unfold is_match. by rewrite (H kv Hkv).
Qed.

(** X14.  Submitting the answer key itself gives full marks: when the
    lists of the key hold hashable values, the answers equal to the key get
    [score] and [total] both equal to the number of entries. *)
Theorem X14_answer_key_gets_full_marks (correct : gmap string json) :
  (∀ k v, correct !! k = Some (JList v) →
          Forall (λ y, hashable y = true) v) →
  score (JDict correct) (JDict correct)
  = Ok (Z.of_nat (size correct), Z.of_nat (size correct)).
Proof.
  intros H.
  assert (∀ kv, kv ∈ map_to_list correct →
                entry_matches (JDict correct) kv.1 kv.2 = Ok true) as Hall.
  { intros [k v] Hkv%elem_of_map_to_list. cbn [fst snd].
    destruct (isinstance_list v) eqn:Hv.
    - destruct v as [| | | |l|]; try done.
      apply entry_matches_list_true. exists l. unfold submitted.
      rewrite Hkv. split; [done|]. pose proof (H k l Hkv).
      auto using same_elements_refl.
    - rewrite entry_matches_nonlist by done. unfold submitted.
      rewrite Hkv. simpl. by rewrite py_eq_refl. }
  unfold score. cbn [py_items mbind result_bind].
  rewrite score_loop_ok by (intros kv Hkv; rewrite (Hall kv Hkv); eauto).
  rewrite (matching_all _ _ Hall), length_map_to_list. done.
Qed.

Lemma X14_witness :
  score (JDict {["q1" := JList [JStr "a"; JStr "b"]]})
        (JDict {["q1" := JList [JStr "a"; JStr "b"]]})
  = Ok (Z.of_nat (size ({["q1" := JList [JStr "a"; JStr "b"]]}
                          : gmap string json)),
        Z.of_nat (size ({["q1" := JList [JStr "a"; JStr "b"]]}
                          : gmap string json))).
Proof.
  apply (X14_answer_key_gets_full_marks {["q1" := JList [JStr "a"; JStr "b"]]}).
  intros k v Hkv. apply lookup_singleton_Some in Hkv as [_ [= <-]].
  repeat constructor.
Defined.

Lemma filter_ext_in {A} (P Q : A → Prop)
    `{∀ x, Decision (P x), ∀ x, Decision (Q x)} (l : list A) :
  (∀ x, x ∈ l → P x ↔ Q x) → filter P l = filter Q l.
Proof.
  induction l as [|x l IH]; intros Hl; [done|].
  rewrite !filter_cons, IH
    by (intros y Hy; apply Hl; by apply list_elem_of_further).
  pose proof (Hl x (list_elem_of_here _ _)).
  destruct (decide (P x)), (decide (Q x)); tauto.
Qed.

Lemma entry_matches_no_answers k v :
  (∀ l, v = JList l → Forall (λ y, hashable y = true) l) →
  entry_matches (JDict ∅) k v = Ok (blank v).
Proof.
  intros H. destruct (isinstance_list v) eqn:Hv.
  - destruct v as [| | | |l|]; try done.
    destruct (entry_matches_list ∅ k l []) as (b & -> & Hb);
      [done|constructor|by apply H|].
    f_equal. apply Bool.eq_iff_eq_true. rewrite Hb. destruct l as [|x l].
    + split; [done|]. intros _. apply same_elements_refl.
    + split; [|done]. intros [_ Hs].
      destruct (Hs x) as (y & Hy & _); [apply list_elem_of_here|].
      by apply elem_of_nil in Hy.
  - rewrite entry_matches_nonlist by done. unfold submitted.
    rewrite lookup_empty. by destruct v.
Qed.

(** X15.  Answers that leave every question out are counted a match only
    for the entries that expect [null] or the empty list: when the lists of
    the key hold hashable values, the empty dict gets as [score] the number
    of such entries, and so 0 when there is none. *)
Theorem X15_score_of_no_answers (correct : gmap string json) :
  (∀ k v, correct !! k = Some (JList v) →
          Forall (λ y, hashable y = true) v) →
  score (JDict correct) (JDict ∅)
  = Ok (Z.of_nat (length (filter (λ kv, blank kv.2 = true)
                            (map_to_list correct))),
        Z.of_nat (size correct)).
Proof.
  intros H.
  assert (∀ kv, kv ∈ map_to_list correct →
                entry_matches (JDict ∅) kv.1 kv.2 = Ok (blank kv.2)) as Hall.
  { intros [k v] Hkv%elem_of_map_to_list. cbn [fst snd].
    apply entry_matches_no_answers. intros l ->. eauto. }
  unfold score. cbn [py_items mbind result_bind].
  rewrite score_loop_ok by (intros kv Hkv; rewrite (Hall kv Hkv); eauto).
  rewrite length_map_to_list. unfold matching.
  rewrite (filter_ext_in _ (λ kv, blank kv.2 = true)); [done|].
  intros kv Hkv. unfold is_match. by rewrite (Hall kv Hkv).
Qed.

Lemma X15_witness :
  score (JDict {["q1" := JList [JStr "a"]]}) (JDict ∅)
  = Ok (Z.of_nat (length (filter (λ kv, blank kv.2 = true)
                            (map_to_list ({["q1" := JList [JStr "a"]]}
                                            : gmap string json)))),
        Z.of_nat (size ({["q1" := JList [JStr "a"]]} : gmap string json))).
Proof.
  apply (X15_score_of_no_answers {["q1" := JList [JStr "a"]]}).
  intros k v Hkv. apply lookup_singleton_Some in Hkv as [_ [= <-]].
  repeat constructor.
Defined.

Lemma entry_matches_nondict user k v :
  isinstance_dict user = false → entry_matches user k v = Raise AttributeError.
Proof.
  intros Hu. unfold entry_matches, py_get.
  destruct user; try done; by destruct (isinstance_list v).
Qed.

(** X16.  Where [AttributeError] comes from.  An answer key that is not a
    dict raises it whatever the answers; answers that are not a dict raise
    it as soon as the key has an entry; and with an empty key the loop does
    nothing and gives 0 and 0, whatever the answers are. *)
Theorem X16_attribute_errors_of_the_loop (user : json) :
  score (JDict ∅) user = Ok (0, 0) ∧
  (∀ correct : gmap string json,
     isinstance_dict user = false → correct ≠ ∅ →
     score (JDict correct) user = Raise AttributeError) ∧
  (∀ correct : json,
     isinstance_dict correct = false →
     score correct user = Raise AttributeError).
Proof.
  split; [done|]. split.
  - intros correct Hu Hne. unfold score. cbn [py_items mbind result_bind].
    destruct (map_to_list correct) as [|[k v] l] eqn:Hl.
    + by apply map_to_list_empty_iff in Hl.
    + cbn [score_loop score_entry].
      by rewrite (entry_matches_nondict user k v Hu).
  - intros correct Hc. by destruct correct.
Qed.

Lemma X16_witness :
  score (JDict {["q1" := JStr "x"]}) JNull = Raise AttributeError ∧
  score (JList [JStr "x"]) JNull = Raise AttributeError.
Proof.
  split.
  - apply (proj1 (proj2 (X16_attribute_errors_of_the_loop JNull))
             {["q1" := JStr "x"]}); [reflexivity|].
    intros H. apply (f_equal (λ m : gmap string json, m !! "q1")) in H.
    by rewrite lookup_singleton_eq in H.
  - apply (proj2 (proj2 (X16_attribute_errors_of_the_loop JNull))).
    reflexivity.
Defined.

(** X17.  A survey whose stored answer key is the text of a value that is
    not a mapping (a list, a string, a number) cannot be answered: every
    call of [submit_response] on it raises [AttributeError], and each call
    still adds its row to [responses]. *)
Theorem X17_key_that_is_not_a_mapping
    (survey_id : Z) (response : ResponseCreate.t) (now : datetime)
    (db : Session) (survey : Survey.t) (v : json) :
  query_survey survey_id db = Some survey →
  Survey.correct_answers survey = Some (json_dumps v) →
  isinstance_dict v = false →
  submit_response survey_id response now db
  = ({| surveys := surveys db;
        responses := responses db ++
          [Response.mk (next_rowid (Response.id <$> responses db))
             (Some survey_id) (json_dumps (ResponseCreate.answers response))
             now (ResponseCreate.student_name response)] |},
     Raise AttributeError).
Proof.
  intros Hq Hc Hv. rewrite (submit_response_found _ _ _ _ _ Hq). f_equal.
  unfold score_calculation. rewrite Hc, truthy_dumps.
  cbn [default from_option id]. rewrite json_loads_dumps.
  cbn [mbind result_bind]. by destruct v.
Qed.

Lemma X17_witness :
  submit_response 1 no_answers 0 listed_db
  = ({| surveys := surveys listed_db;
        responses := responses listed_db ++
          [Response.mk (next_rowid (Response.id <$> responses listed_db))
             (Some 1) (json_dumps (ResponseCreate.answers no_answers))
             0 (ResponseCreate.student_name no_answers)] |},
     Raise AttributeError).
Proof.
  apply (X17_key_that_is_not_a_mapping 1 no_answers 0 listed_db
           (Survey.mk 1 "Listed" None (dump_questions [])
              (Some (json_dumps (JList [JStr "a"]))))
           (JList [JStr "a"])); reflexivity.
Defined.

(** X18.  The order in which the entries of the answer key are visited
    does not matter: the loop run over the entries in any order, and in
    particular in the insertion order of the Python dict, gives the result
    it gives on the map. *)
Theorem X18_order_of_entries_is_irrelevant
    (user : json) (items : list (string * json)) :
  NoDup items.*1 →
  score_loop user items (0, 0) = score (JDict (list_to_map items)) user.
Proof.
  intros Hnd. unfold score. cbn [py_items mbind result_bind].
  apply score_loop_Permutation. symmetry. by apply map_to_list_to_map.
Qed.

Lemma X18_witness :
  score_loop (JDict {["q1" := JStr "x"]})
    [("q2", JStr "y"); ("q1", JStr "x")] (0, 0)
  = score (JDict (list_to_map [("q2", JStr "y"); ("q1", JStr "x")]))
      (JDict {["q1" := JStr "x"]}).
Proof.
  apply (X18_order_of_entries_is_irrelevant (JDict {["q1" := JStr "x"]})
           [("q2", JStr "y"); ("q1", JStr "x")]).
  simpl. repeat constructor.
  - intros H. apply elem_of_cons in H as [H|H]; [done|].
    by apply elem_of_nil in H.
  - intros H. by apply elem_of_nil in H.
Defined.

(** X19.  Answers to questions that the answer key does not have are
    ignored: adding, changing or removing the value submitted under a key
    that is not in the answer key changes neither the score nor whether the
    loop raises. *)
Theorem X19_answers_outside_the_key_are_ignored
    (correct user : gmap string json) (k : string) (x : json) :
  correct !! k = None →
  score (JDict correct) (JDict (<[k := x]> user))
  = score (JDict correct) (JDict user) ∧
  score (JDict correct) (JDict (delete k user))
  = score (JDict correct) (JDict user).
Proof.
  intros Hk. unfold score. cbn [py_items mbind result_bind].
  split; apply score_loop_ext; intros [k' v] Hkv%elem_of_map_to_list;
    cbn [fst snd]; (assert (k ≠ k') as Hne by congruence);
    unfold entry_matches, py_get.
  - by rewrite lookup_insert_ne.
  - by rewrite lookup_delete_ne.
Qed.

Lemma X19_witness :
  score (JDict {["q1" := JStr "x"]})
    (JDict (<["q9" := JInt 5]> {["q1" := JStr "x"]}))
  = score (JDict {["q1" := JStr "x"]}) (JDict {["q1" := JStr "x"]}) ∧
  score (JDict {["q1" := JStr "x"]}) (JDict (delete "q9" {["q1" := JStr "x"]}))
  = score (JDict {["q1" := JStr "x"]}) (JDict {["q1" := JStr "x"]}).
Proof.
  apply (X19_answers_outside_the_key_are_ignored
           {["q1" := JStr "x"]} {["q1" := JStr "x"]} "q9" (JInt 5)).
  reflexivity.
Defined.




(** ** What a call leaves alone *)

Lemma filter_assign survey_id survey_update id' (ss : list Survey.t) :
  id' ≠ survey_id →
  filter (λ s, Survey.id s = id') (assign survey_id survey_update <$> ss)
  = filter (λ s, Survey.id s = id') ss.
Proof.
  intros Hne. induction ss as [|s ss IH]; [done|].
  cbn [fmap list_fmap]. rewrite !filter_cons, IH.
  destruct (assign_fields survey_id survey_update s) as [Hid _].
  rewrite Hid. destruct (decide (Survey.id s = id')) as [He|]; [|done].
  unfold assign. rewrite decide_False by congruence. done.
Qed.

(** X21.  [update_survey] on one id leaves the other surveys and all the
    responses as they were: [get_survey] on any other id and
    [list_responses] on any id return afterwards what they returned
    before. *)
Theorem X21_update_leaves_other_surveys
    (survey_id id' : Z) (survey_update : SurveyCreate.t) (db : Session) :
  (id' ≠ survey_id →
   (get_survey id' (update_survey survey_id survey_update db).1).2
   = (get_survey id' db).2) ∧
  (list_responses id' (update_survey survey_id survey_update db).1).2
  = (list_responses id' db).2.
Proof.
  destruct (query_survey survey_id db) as [survey|] eqn:Hq.
  - rewrite (update_survey_found _ _ _ _ Hq). cbn [fst]. split; [|done].
    intros Hne. unfold get_survey, query_survey. cbn [surveys].
    rewrite filter_assign by done. by destruct (head _).
  - unfold update_survey. rewrite Hq. done.
Qed.

Lemma X21_witness :
  (get_survey 1 (update_survey 2 quiz_update
                   (create_survey unkeyed quiz_db).1).1).2
  = (get_survey 1 (create_survey unkeyed quiz_db).1).2.
Proof.
  apply (X21_update_leaves_other_surveys 2 1 quiz_update
           (create_survey unkeyed quiz_db).1).
  lia.
Defined.

Lemma mapM_filter_survey_out survey_id (ss : list Survey.t) outs :
  mapM survey_out ss = Ok outs →
  mapM survey_out (filter (λ s, Survey.id s ≠ survey_id) ss)
  = Ok (filter (λ out, SurveyOut.id out ≠ survey_id) outs).
Proof.
  revert outs. induction ss as [|s ss IH]; intros outs Hm.
  - by injection Hm as <-.
  - cbn [mapM] in Hm. destruct (survey_out s) as [out|] eqn:Hs; [|done].
    cbn [mbind result_bind] in Hm.
    destruct (mapM survey_out ss) as [outs'|]; [|done].
    cbn [mbind result_bind] in Hm. injection Hm as <-.
    pose proof (survey_out_id s out Hs) as Hid.
    rewrite !filter_cons, Hid.
    destruct (decide (Survey.id s ≠ survey_id)).
    + cbn [mapM]. rewrite Hs. cbn [mbind result_bind].
      by rewrite (IH outs' eq_refl).
    + by apply IH.
Qed.

(** X22.  After [delete_survey], [list_surveys] returns the list it
    returned before without the survey deleted, the others in the same
    order. *)
Theorem X22_list_surveys_after_delete
    (survey_id : Z) (db : Session) (outs : list SurveyOut.t) :
  (list_surveys db).2 = Ok outs →
  (list_surveys (delete_survey survey_id db).1).2
  = Ok (filter (λ out, SurveyOut.id out ≠ survey_id) outs).
Proof.
  intros Houts. unfold list_surveys in *. cbn [snd] in *.
  unfold delete_survey.
  destruct (query_survey survey_id db) as [survey|] eqn:Hq.
  - cbn [fst surveys]. by apply mapM_filter_survey_out.
  - cbn [fst]. rewrite Houts. f_equal. symmetry. apply filter_all.
    intros out Hout Hid.
    apply query_survey_None in Hq. apply Hq. clear Hq.
    revert outs Houts Hout.
    induction (surveys db) as [|s ss IH]; intros outs Houts Hout.
    + injection Houts as <-. by apply elem_of_nil in Hout.
    + cbn [mapM] in Houts. destruct (survey_out s) as [o|] eqn:Hs; [|done].
      cbn [mbind result_bind] in Houts.
      destruct (mapM survey_out ss) as [outs'|]; [|done].
      cbn [mbind result_bind] in Houts. injection Houts as <-.
      cbn [fmap list_fmap].
      apply elem_of_cons in Hout as [-> | Hout].
      * rewrite <- Hid, (survey_out_id s o Hs). apply list_elem_of_here.
      * apply list_elem_of_further. by apply (IH outs').
Qed.

Lemma X22_witness :
  (list_surveys (delete_survey 1 quiz_db).1).2
  = Ok (filter (λ out, SurveyOut.id out ≠ 1)
          [SurveyOut.mk 1 "Quiz" None (SurveyCreate.questions quiz)
             (SurveyCreate.correct_answers quiz)]).
Proof.
  apply (X22_list_surveys_after_delete 1 quiz_db). vm_compute. reflexivity.
Defined.
